(** * Departure board on an SSD1322 OLED (oled.py)

    A shallow embedding of the departure pipeline of [oled.py]:
    [fetch_departures], [get_all_departures], [draw_board] and the refresh
    loop, followed by the properties of the aggregation, of the minute and
    delay arithmetic and of the board layout.

    Conventions of the embedding.
    - A Python [str] is a [string]; one [ascii] stands for one character.
    - A decoded JSON scalar is a [Py.pyval].  The fields requested by the
      GraphQL query are scalars; lists, objects and floats are not modelled
      as JSON values.
    - A statement that may raise is a value of [exc]: [None] is a raised
      exception.  Every handler of the program is [except Exception], so the
      kind of the exception never matters.
    - Instants and durations are integers, in microseconds.  The two float
      divisions of the minute count are computed as binary64 does, rounding
      to nearest, ties to even. *)

From Stdlib Require Import ZArith List String Ascii Bool Lia.
From Stdlib Require Import Permutation Sorted DecimalString.
Import ListNotations.

Local Open Scope string_scope.
Local Open Scope Z_scope.

(** ** Raising computations *)

Definition exc (A : Type) : Type := option A.

Notation "x <- m ;; k" :=
  (match m with Some x => k | None => None end)
  (at level 61, m at next level, right associativity).

Notation "' p <- m ;; k" :=
  (match m with Some p => k | None => None end)
  (at level 61, p pattern, m at next level, right associativity).

(** [try: r = m  except Exception: r = h] *)
Definition try_except {A : Type} (m : exc A) (h : A) : A :=
  match m with
  | Some a => a
  | None => h
  end.

(** ** Python values and the built-in operations the program uses *)

Module Py.

Inductive pyval : Type :=
| VNone
| VBool (b : bool)
| VInt (n : Z)
| VStr (s : string).

(** Truth value of an object, as tested by [if x:], [x or y] and a
    comprehension's [if]. *)
Definition truthy (v : pyval) : bool :=
  match v with
  | VNone => false
  | VBool b => b
  | VInt n => negb (n =? 0)
  | VStr s => negb (s =? "")%string
  end.

(** [v or ""] *)
Definition or_empty (v : pyval) : pyval :=
  if truthy v then v else VStr "".

(** [str(n)] for an [int]. *)
Definition str_of_int (n : Z) : string :=
  NilZero.string_of_int (Z.to_int n).

(** [str(v)], which is what an f-string field [{v}] inserts. *)
Definition py_str (v : pyval) : string :=
  match v with
  | VNone => "None"
  | VBool true => "True"
  | VBool false => "False"
  | VInt n => str_of_int n
  | VStr s => s
  end.

(** Numbers: [bool] is a subclass of [int]. *)
Definition py_num (v : pyval) : option Z :=
  match v with
  | VBool b => Some (Z.b2z b)
  | VInt n => Some n
  | _ => None
  end.

(** [a < b]: code-point order on two strings, numeric order on two numbers,
    [TypeError] otherwise. *)
Definition py_lt (a b : pyval) : exc bool :=
  match a, b with
  | VStr s, VStr t => Some (String.ltb s t)
  | _, _ =>
      match py_num a, py_num b with
      | Some x, Some y => Some (x <? y)
      | _, _ => None
      end
  end.

(** [min(iterable)]: the running minimum is replaced only by a strictly
    smaller item; an empty iterable raises [ValueError]. *)
Fixpoint min_from (best : pyval) (l : list pyval) : exc pyval :=
  match l with
  | [] => Some best
  | x :: r =>
      b <- py_lt x best ;;
      if b then min_from x r else min_from best r
  end.

Definition py_min (l : list pyval) : exc pyval :=
  match l with
  | [] => None
  | x :: r => min_from x r
  end.

(** [list.sort(key=...)]: a stable sort that only uses [<] on the keys, and
    raises when a comparison does.  The result of a sort that ends is the
    same for every stable sort; which comparisons are made is not, but on
    keys that are strings or numbers every sort of two items or more meets
    a raising comparison exactly when both kinds are present.
    [insert_by key x l] puts [x], which stood before every element of [l],
    in front of the first element that is not strictly smaller. *)
Section Sort.
Context {A : Type}.
Variable key : A -> pyval.

Fixpoint insert_by (x : A) (l : list A) : exc (list A) :=
  match l with
  | [] => Some [x]
  | y :: r =>
      b <- py_lt (key y) (key x) ;;
      if b then (r' <- insert_by x r ;; Some (y :: r'))
      else Some (x :: y :: r)
  end.

Fixpoint sort_by (l : list A) : exc (list A) :=
  match l with
  | [] => Some []
  | x :: r => r' <- sort_by r ;; insert_by x r'
  end.
End Sort.

(** [s.replace("Z", "+00:00")]: every occurrence is replaced. *)
Fixpoint replace_Z (s : string) : string :=
  match s with
  | EmptyString => EmptyString
  | String c r =>
      if (c =? "Z")%char then "+00:00" ++ replace_Z r
      else String c (replace_Z r)
  end.

(** [v.replace("Z", "+00:00")] on an arbitrary value: [AttributeError]
    unless [v] is a string. *)
Definition replace_Z_val (v : pyval) : exc string :=
  match v with
  | VStr s => Some (replace_Z s)
  | _ => None
  end.

(** [s[:n]] *)
Definition take (n : nat) (s : string) : string := substring 0 n s.

(** [sep.join(items)]: [TypeError] if an item is not a string. *)
Fixpoint strings_of (l : list pyval) : exc (list string) :=
  match l with
  | [] => Some []
  | VStr s :: r => r' <- strings_of r ;; Some (s :: r')
  | _ :: _ => None
  end.

Definition join (sep : string) (items : list pyval) : exc string :=
  ss <- strings_of items ;; Some (String.concat sep ss).

(** [" " * n] *)
Fixpoint spaces (n : nat) : string :=
  match n with
  | O => ""
  | S k => String " " (spaces k)
  end.

(** [f"{s:>w}"]: right-aligned in a field of width [w], padded with spaces. *)
Definition rjust (w : nat) (s : string) : string :=
  spaces (w - String.length s) ++ s.

(** [s.lower()], on the ASCII letters. *)
Definition lower_char (c : ascii) : ascii :=
  let n := N_of_ascii c in
  if ((65 <=? n) && (n <=? 90))%N then ascii_of_N (n + 32) else c.

Fixpoint lower (s : string) : string :=
  match s with
  | EmptyString => EmptyString
  | String c r => String (lower_char c) (lower r)
  end.

End Py.

Import Py.

(** ** [datetime]: values, arithmetic and [fromisoformat] *)

Module DT.

Definition US_PER_SECOND : Z := 1000000.
Definition US_PER_MINUTE : Z := 60 * US_PER_SECOND.
Definition US_PER_HOUR : Z := 60 * US_PER_MINUTE.
Definition US_PER_DAY : Z := 24 * US_PER_HOUR.

(** A [datetime] is its wall-clock reading, in microseconds since
    0001-01-01T00:00:00 of the proleptic Gregorian calendar, and, when it is
    offset-aware, the UTC offset of its [tzinfo]. *)
Inductive datetime : Type :=
| Naive (wall : Z)
| Aware (wall : Z) (utcoffset : Z).

(** [datetime.min <= d <= datetime.max]: years 1 to 9999. *)
Definition MAX_WALL : Z := 3652059 * US_PER_DAY.

Definition in_range (wall : Z) : bool := (0 <=? wall) && (wall <? MAX_WALL).

(** [a - b]: a [timedelta], here in microseconds.  Two aware values are
    compared as instants, two naive values as wall-clock readings; mixing
    them raises [TypeError]. *)
Definition sub (a b : datetime) : exc Z :=
  match a, b with
  | Aware wa oa, Aware wb ob => Some ((wa - oa) - (wb - ob))
  | Naive wa, Naive wb => Some (wa - wb)
  | _, _ => None
  end.

(** [a > b], with the same rule. *)
Definition gt (a b : datetime) : exc bool :=
  d <- sub a b ;; Some (0 <? d).

(** *** The doubles of [td.total_seconds() / 60]

    [total_seconds] and the division by 60 work on binary64 floats.  A
    double is held here as the number of units of 2^-128 it counts: every
    double the two divisions produce is a whole number of these units,
    since a duration that is not zero is at least one microsecond, and
    [datetime] keeps durations below 10^12 seconds, far from overflow. *)
Definition UNIT : Z := 2 ^ 128.

(** [n / d] rounded to the nearest integer, to the even one when two are
    as near ([0 <= n], [0 < d]). *)
Definition round_half_even (n d : Z) : Z :=
  let q := n / d in
  let r := n mod d in
  if 2 * r <? d then q
  else if d <? 2 * r then q + 1
  else if Z.even q then q else q + 1.

(** The gap between the doubles around [n / d], which have 53 significant
    bits. *)
Definition spacing (n d : Z) : Z := 2 ^ Z.max 0 (Z.log2 (n / d) - 52).

(** The double nearest to [n / d], ties to even ([0 <= n], [0 < d]): the
    result of a correctly rounded division. *)
Definition nearest_double (n d : Z) : Z :=
  let g := spacing n d in
  g * round_half_even n (d * g).

Definition round_to_double (n d : Z) : Z :=
  if n <? 0 then - nearest_double (- n) d else nearest_double n d.

(** [td.total_seconds()]: the microseconds of [td], an [int], divided by
    [10**6]; the division of two [int]s is correctly rounded. *)
Definition total_seconds (td : Z) : Z :=
  round_to_double (td * UNIT) US_PER_SECOND.

(** [int(td.total_seconds() / 60)]: the division of a double by 60 is
    correctly rounded, and [int] drops the fraction of the quotient. *)
Definition minutes_of_delta (td : Z) : Z :=
  Z.quot (round_to_double (total_seconds td) 60) UNIT.

(** [d.astimezone(tz)].  [tz] gives the UTC offset of the target zone at an
    instant; [local_utcoffset] is the offset the platform assigns to a naive
    wall-clock reading ([None] when it raises).  [d - offset] and
    [utc + offset] raise [OverflowError] outside years 1 to 9999. *)
Definition astimezone (local_utcoffset : Z -> exc Z) (tz : Z -> Z)
    (d : datetime) : exc datetime :=
  '(wall, off) <- match d with
                  | Aware w o => Some (w, o)
                  | Naive w => o <- local_utcoffset w ;; Some (w, o)
                  end ;;
  let utc := wall - off in
  if in_range utc then
    let w' := utc + tz utc in
    if in_range w' then Some (Aware w' (tz utc)) else None
  else None.

(** [timezone.utc] as a target zone. *)
Definition utc : Z -> Z := fun _ => 0.

(** [datetime.now(timezone.utc)] at instant [now]. *)
Definition at_utc (now : Z) : datetime := Aware now 0.

Definition wall_of (d : datetime) : Z :=
  match d with
  | Naive w => w
  | Aware w _ => w
  end.

Definition two_digits (n : Z) : string :=
  (if n <? 10 then "0" else "") ++ str_of_int n.

(** [d.strftime("%H:%M")] and [d.strftime("%H:%M:%S")] *)
Definition strftime_HM (d : datetime) : string :=
  let w := wall_of d in
  two_digits ((w / US_PER_HOUR) mod 24) ++ ":" ++
  two_digits ((w / US_PER_MINUTE) mod 60).

Definition strftime_HMS (d : datetime) : string :=
  strftime_HM d ++ ":" ++ two_digits ((wall_of d / US_PER_SECOND) mod 60).

(** *** The calendar *)

Definition is_leap (y : Z) : bool :=
  ((y mod 4 =? 0) && negb (y mod 100 =? 0)) || (y mod 400 =? 0).

Definition days_in_month (y m : Z) : Z :=
  if m =? 2 then (if is_leap y then 29 else 28)
  else if (m =? 4) || (m =? 6) || (m =? 9) || (m =? 11) then 30
  else 31.

Definition days_before_year (y : Z) : Z :=
  let p := y - 1 in p * 365 + p / 4 - p / 100 + p / 400.

Definition days_before_month (y m : Z) : Z :=
  nth (Z.to_nat (m - 1)) [0; 31; 59; 90; 120; 151; 181; 212; 243; 273; 304; 334] 0
  + (if (2 <? m) && is_leap y then 1 else 0).

(** Wall-clock reading of the fields, or [ValueError] when a field is out of
    its range. *)
Definition make_wall (y mo d h mi s us : Z) : exc Z :=
  if (1 <=? y) && (y <=? 9999) && (1 <=? mo) && (mo <=? 12)
     && (1 <=? d) && (d <=? days_in_month y mo)
     && (h <? 24) && (mi <? 60) && (s <? 60)
  then Some ((days_before_year y + days_before_month y mo + (d - 1)) * US_PER_DAY
             + h * US_PER_HOUR + mi * US_PER_MINUTE + s * US_PER_SECOND + us)
  else None.

(** *** [datetime.fromisoformat]

    The library function on the format its documentation gives for it,
    [YYYY-MM-DD[*HH[:MM[:SS[.fff[fff]]]][+HH:MM[:SS[.ffffff]]]]], where [*]
    is any one character.  A string outside the format is a [ValueError].
    The general results below do not depend on this definition: they hold
    for any parser.  It serves to run the program on concrete timestamps. *)

Definition digit (c : ascii) : option Z :=
  let n := Z.of_N (N_of_ascii c) in
  if (48 <=? n) && (n <=? 57) then Some (n - 48) else None.

(** Exactly [k] decimal digits. *)
Fixpoint digits (k : nat) (acc : Z) (s : string) : option (Z * string) :=
  match k, s with
  | O, _ => Some (acc, s)
  | S k', String c r => d <- digit c ;; digits k' (10 * acc + d) r
  | S _, EmptyString => None
  end.

Definition expect (c : ascii) (s : string) : option string :=
  match s with
  | String c' r => if (c' =? c)%char then Some r else None
  | EmptyString => None
  end.

(** [.fff] or [.ffffff], after the dot, in microseconds. *)
Definition fraction (s : string) : option (Z * string) :=
  match digits 6 0 s with
  | Some r => Some r
  | None => '(v, r) <- digits 3 0 s ;; Some (v * 1000, r)
  end.

(** [HH[:MM[:SS[.fff[fff]]]]] and what follows it. *)
Definition clock (s : string) : option (Z * Z * Z * Z * string) :=
  '(h, r) <- digits 2 0 s ;;
  match expect ":" r with
  | None => Some (h, 0, 0, 0, r)
  | Some r1 =>
      '(m, r2) <- digits 2 0 r1 ;;
      match expect ":" r2 with
      | None => Some (h, m, 0, 0, r2)
      | Some r3 =>
          '(sec, r4) <- digits 2 0 r3 ;;
          match expect "." r4 with
          | None => Some (h, m, sec, 0, r4)
          | Some r5 => '(us, r6) <- fraction r5 ;; Some (h, m, sec, us, r6)
          end
      end
  end.

(** [HH:MM[:SS[.ffffff]]] up to the end of the string, in microseconds. *)
Definition offset_clock (s : string) : option Z :=
  '(h, r) <- digits 2 0 s ;;
  r1 <- expect ":" r ;;
  '(m, r2) <- digits 2 0 r1 ;;
  let hm := h * US_PER_HOUR + m * US_PER_MINUTE in
  match r2 with
  | EmptyString => Some hm
  | _ =>
      r3 <- expect ":" r2 ;;
      '(sec, r4) <- digits 2 0 r3 ;;
      match r4 with
      | EmptyString => Some (hm + sec * US_PER_SECOND)
      | _ =>
          r5 <- expect "." r4 ;;
          '(us, r6) <- digits 6 0 r5 ;;
          match r6 with
          | EmptyString => Some (hm + sec * US_PER_SECOND + us)
          | _ => None
          end
      end
  end.

(** The optional UTC offset: [None] inside [Some] is a naive time.
    [timezone(offset)] requires an offset strictly within 24 hours. *)
Definition offset (s : string) : option (option Z) :=
  match s with
  | EmptyString => Some None
  | String c r =>
      sign <- (if (c =? "+")%char then Some 1
               else if (c =? "-")%char then Some (-1) else None) ;;
      o <- offset_clock r ;;
      if o <? US_PER_DAY then Some (Some (sign * o)) else None
  end.

Definition fromisoformat (s : string) : exc datetime :=
  '(y, r) <- digits 4 0 s ;;
  r1 <- expect "-" r ;;
  '(mo, r2) <- digits 2 0 r1 ;;
  r3 <- expect "-" r2 ;;
  '(d, r4) <- digits 2 0 r3 ;;
  match r4 with
  | EmptyString => w <- make_wall y mo d 0 0 0 0 ;; Some (Naive w)
  | String _ r5 =>
      '(h, mi, sec, us, r6) <- clock r5 ;;
      o <- offset r6 ;;
      w <- make_wall y mo d h mi sec us ;;
      match o with
      | None => Some (Naive w)
      | Some off => Some (Aware w off)
      end
  end.

End DT.

(** ** Data of the program *)

(** One estimated call of the response.  Each field is the value the program
    reads with the accessor given beside it. *)
Record call : Type := {
  expectedArrivalTime : pyval;  (* c.get("expectedArrivalTime") *)
  aimedArrivalTime : pyval;     (* dep.get("aimedArrivalTime") *)
  realtime : pyval;             (* dep.get("realtime", False) *)
  frontText : string;           (* dep.get("destinationDisplay", {}).get("frontText", "") *)
  publicCode : pyval;           (* dep["serviceJourney"]["line"]["publicCode"] *)
  transportMode : pyval         (* dep["serviceJourney"]["line"].get("transportMode") *)
}.

(** What one GraphQL request comes to, as [fetch_departures] tells the cases
    apart. *)
Inductive response : Type :=
| Failed        (* the request, the decoding or a lookup on the payload raises *)
| Errors        (* "errors" in data *)
| NoStopPlace   (* data["data"]["stopPlace"] is None *)
| StopPlace (name : option pyval) (estimatedCalls : list call).
                (* name: the "name" member, None when the key is missing *)

Module Config.
(** An entry of [config["stops"]]; only [id] is read. *)
Record stop : Type := { id : string; name : string; type : string }.

Record t : Type := {
  stops : list stop;
  numberOfDepartures : nat;   (* settings.numberOfDepartures *)
  refreshInterval : Z         (* settings.refreshInterval, milliseconds *)
}.
End Config.

Inductive font : Type := FONT | FONT_ICON.

(** The two mode symbols, drawn with [FONT_ICON]. *)
Inductive glyph : Type := TramSymbol | BusSymbol.

(** The calls [draw_board] makes on the image and the device, in order. *)
Inductive draw_op : Type :=
| Rectangle (x0 y0 x1 y1 : Z)             (* draw.rectangle(..., fill=0) *)
| Text (x y : Z) (text : pyval) (f : font)  (* draw.text((x, y), text, fill=255, font=f) *)
| Icon (x y : Z) (g : glyph)              (* draw.text((x, y), symbol, fill=255, font=FONT_ICON) *)
| Line (x0 y0 x1 y1 : Z)                  (* draw.line((x0, y0, x1, y1), fill=255, width=1) *)
| Display.                                (* device.display(image) *)

(** What the program takes from the interpreter, the platform and the
    libraries. *)
Record runtime : Type := {
  (* datetime.datetime.fromisoformat *)
  fromisoformat : string -> exc DT.datetime;
  (* UTC offset the platform gives to a naive wall-clock reading *)
  local_utcoffset : Z -> exc Z;
  (* the order list.sort leaves behind when a comparison raises: the list
     is then "left in a partially modified state" *)
  interrupted_sort : list call -> list call;
  (* draw.textbbox((x, y), text, font=FONT): left, top, right, bottom *)
  textbbox : Z -> Z -> string -> Z * Z * Z * Z;
  device_width : Z;
  device_height : Z
}.

(** ** The program *)

Section Program.

Variable rt : runtime.
Variable config : Config.t.

(** *** fetch_departures (lines 113-154)

    [post stop_id] is the outcome of the request for that stop. *)
Definition fetch_departures (post : string -> response) (stop_id : string)
    : pyval * list call :=
  match post stop_id with
  | Failed => (VStr "Error", [])
  | Errors => (VStr "Error", [])
  | NoStopPlace => (VStr "Not Found", [])
  | StopPlace name calls =>
      let stop_name := match name with
                       | Some v => v
                       | None => VStr "Unknown Stop"
                       end in
      let filtered_calls :=
        filter (fun c => truthy (expectedArrivalTime c)) calls in
      (stop_name, filtered_calls)
  end.

(** *** get_all_departures (lines 160-198) *)

(** [stop_name in ("Not Found", "Error")] *)
Definition is_failure_name (stop_name : pyval) : bool :=
  match stop_name with
  | VStr s => (s =? "Not Found")%string || (s =? "Error")%string
  | _ => false
  end.

(** [max(int((t - now_utc).total_seconds() / 60), 0)] *)
Definition minutes_from (t : DT.datetime) (now_utc : Z) : exc Z :=
  td <- DT.sub t (DT.at_utc now_utc) ;;
  Some (Z.max (DT.minutes_of_delta td) 0).

(** Lines 171-184: the next arrival of one stop. *)
Definition next_arrival (tz : Z -> Z) (now_utc : Z) (calls : list call)
    : string :=
  try_except
    (match calls with
     | [] => Some ""
     | _ :: _ =>
         earliest <- py_min (map expectedArrivalTime
                        (filter (fun c => truthy (expectedArrivalTime c)) calls)) ;;
         s <- replace_Z_val earliest ;;
         d <- fromisoformat rt s ;;
         t_exp <- DT.astimezone (local_utcoffset rt) DT.utc d ;;
         mins <- minutes_from t_exp now_utc ;;
         let time_str :=
           try_except
             (d' <- fromisoformat rt s ;;
              t_local <- DT.astimezone (local_utcoffset rt) tz d' ;;
              Some (DT.strftime_HM t_local))
             "--:--" in
         Some (str_of_int mins ++ "m " ++ time_str)
     end)
    "".

(** Lines 186-189: the entry appended to [stop_infos]. *)
Definition stop_info (stop_name : pyval) (next_info : string) : pyval :=
  if (next_info =? "")%string then stop_name
  else VStr (py_str stop_name ++ " " ++ next_info).

(** One turn of the loop over the stops, on the pair [(deps, stop_infos)]. *)
Definition process_stop (post : string -> response) (tz : Z -> Z) (now_utc : Z)
    (acc : list call * list pyval) (stop : Config.stop)
    : list call * list pyval :=
  let '(deps, stop_infos) := acc in
  let '(stop_name, calls) := fetch_departures post (Config.id stop) in
  if is_failure_name stop_name then acc
  else
    let next_info := next_arrival tz now_utc calls in
    ((deps ++ calls)%list, (stop_infos ++ [stop_info stop_name next_info])%list).

(** [lambda d: d.get("expectedArrivalTime") or ""] *)
Definition sort_key (d : call) : pyval := or_empty (expectedArrivalTime d).

(** Lines 193-196: [deps.sort(key=...)] under [try], [pass] on failure. *)
Definition sort_deps (deps : list call) : list call :=
  match sort_by sort_key deps with
  | Some sorted => sorted
  | None => interrupted_sort rt deps
  end.

Definition get_all_departures (post : string -> response) (tz : Z -> Z)
    (now_utc : Z) : list call * list pyval :=
  let '(deps, stop_infos) :=
    fold_left (process_stop post tz now_utc) (Config.stops config) ([], []) in
  (sort_deps deps, stop_infos).

(** *** draw_board (lines 201-342) *)

Definition col_mode_x : Z := 5.
Definition col_line_x : Z := 35.
Definition col_dest_x : Z := 65.
Definition col_time_x : Z := 200.

(** Lines 233-239: the test that puts a line among the delayed routes. *)
Definition is_delayed (aimed expected : pyval) : bool :=
  try_except
    (if truthy aimed && truthy expected then
       a <- replace_Z_val aimed ;;
       t_aim <- fromisoformat rt a ;;
       e <- replace_Z_val expected ;;
       t_exp <- fromisoformat rt e ;;
       DT.gt t_exp t_aim
     else Some false)
    false.

(** Lines 231-243: the codes added to [delayed_routes], in order of
    appearance. *)
Definition delayed_routes (deps : list call) : list pyval :=
  map publicCode
    (filter (fun dep => is_delayed (aimedArrivalTime dep) (expectedArrivalTime dep))
       deps).

(** [sorted(set_of_strings)] *)
Fixpoint insert_uniq (s : string) (l : list string) : list string :=
  match l with
  | [] => [s]
  | t :: r =>
      match String.compare s t with
      | Lt => s :: t :: r
      | Eq => t :: r
      | Gt => t :: insert_uniq s r
      end
  end.

Definition sorted_set (l : list string) : list string :=
  fold_right insert_uniq [] l.

(** Lines 247-252: the text of the delay row, if there is one.  A code that
    is not a string makes [sorted] or [join] raise. *)
Definition delayed_text (routes : list pyval) : exc (option string) :=
  match routes with
  | [] => Some None
  | _ :: _ =>
      codes <- strings_of routes ;;
      Some (Some ("Delays: " ++ String.concat ", " (sorted_set codes)))
  end.

(** Lines 279-284 and 288-293: one of the two [if x:] blocks of the [try]. *)
Definition minutes_until (t : pyval) (now_utc : Z) : exc (option Z) :=
  if truthy t then
    s <- replace_Z_val t ;;
    d <- fromisoformat rt s ;;
    mins <- minutes_from d now_utc ;;
    Some (Some mins)
  else Some None.

(** Lines 273-298: [(mins_sched, mins_updated)] after the [try]. *)
Definition computed_minutes (dep : call) (now_utc : Z)
    : option Z * option Z :=
  try_except
    (mins_sched <- minutes_until (aimedArrivalTime dep) now_utc ;;
     mins_updated <- minutes_until (expectedArrivalTime dep) now_utc ;;
     Some (mins_sched, mins_updated))
    (None, None).

(** Lines 300-304. *)
Definition fallback (mins : option Z * option Z) : option Z * option Z :=
  let '(mins_sched, mins_updated) := mins in
  let mins_updated :=
    match mins_updated, mins_sched with
    | None, Some s => Some s
    | _, _ => mins_updated
    end in
  let mins_sched :=
    match mins_sched, mins_updated with
    | None, Some u => Some u
    | _, _ => mins_sched
    end in
  (mins_sched, mins_updated).

(** [(mins_sched, mins_updated)] as the row displays them. *)
Definition row_minutes (dep : call) (now_utc : Z) : option Z * option Z :=
  fallback (computed_minutes dep now_utc).

(** [f"{mins:>2}m"] *)
Definition minutes_text (mins : Z) : string :=
  rjust 2 (str_of_int mins) ++ "m".

(** Lines 313-338: the time field of a row. *)
Definition time_field (y : Z) (realtime : pyval)
    (mins_sched mins_updated : option Z) : list draw_op :=
  let plain :=
    let mins := match mins_updated with
                | Some u => u
                | None => 0
                end in
    [Text col_time_x y (VStr (minutes_text mins)) FONT] in
  match truthy realtime, mins_sched, mins_updated with
  | true, Some s, Some u =>
      if s =? u then plain
      else
        let sched_text := minutes_text s in
        let updated_text := minutes_text u in
        let '(bbox0, bbox1, bbox2, bbox3) := textbbox rt col_time_x y sched_text in
        let mid_y := (bbox1 + bbox3) / 2 in
        let updated_x := bbox2 + 4 in
        [Text col_time_x y (VStr sched_text) FONT;
         Line bbox0 mid_y bbox2 mid_y;
         Text updated_x y (VStr updated_text) FONT]
  | _, _, _ => plain
  end.

(** Lines 265-270: [(mode or "").lower()] raises on a number. *)
Definition symbol_of (mode : pyval) : exc glyph :=
  match or_empty mode with
  | VStr s => Some (if (lower s =? "tram")%string then TramSymbol else BusSymbol)
  | _ => None
  end.

(** [draw.text(xy, text, ...)] with a [text] read from the response: Pillow
    raises [TypeError] unless it is a string. *)
Definition drawn_text (text : pyval) : exc string :=
  match text with
  | VStr s => Some s
  | _ => None
  end.

(** Lines 263-338: one row at height [y]. *)
Definition draw_row (now_utc : Z) (y : Z) (dep : call) : exc (list draw_op) :=
  symbol <- symbol_of (transportMode dep) ;;
  let '(mins_sched, mins_updated) := row_minutes dep now_utc in
  let dest_short := take 18 (frontText dep) in
  line <- drawn_text (publicCode dep) ;;
  Some ([Icon col_mode_x y symbol;
         Text col_line_x y (VStr line) FONT;
         Text col_dest_x y (VStr dest_short) FONT]
        ++ time_field y (realtime dep) mins_sched mins_updated)%list.

(** Lines 262-340: the rows, 15 pixels apart. *)
Fixpoint draw_rows (now_utc : Z) (y : Z) (deps : list call)
    : exc (list draw_op) :=
  match deps with
  | [] => Some []
  | dep :: rest =>
      row <- draw_row now_utc y dep ;;
      rows <- draw_rows now_utc (y + 15) rest ;;
      Some (row ++ rows)%list
  end.

(** Lines 225-227. *)
Definition header_text (stop_infos : list pyval) : exc string :=
  joined <- match stop_infos with
            | [] => Some "Departure Board"
            | _ :: _ => join " / " stop_infos
            end ;;
  Some (take 40 joined).

(** [draw_board]: [now_local] is the clock text of lines 210-213 and
    [now_utc] the instant read at line 216.  It raises where the program
    does; nothing is shown then. *)
Definition draw_board (deps : list call) (stop_infos : list pyval)
    (now_local : string) (now_utc : Z) : exc (list draw_op) :=
  let '(bbox0, _, bbox2, _) := textbbox rt 0 0 now_local in
  let time_width := bbox2 - bbox0 in
  let time_x := device_width rt - time_width - 5 in
  header <- header_text stop_infos ;;
  delays <- delayed_text (delayed_routes deps) ;;
  let y := match delays with
           | Some _ => 32
           | None => 25
           end in
  rows <- draw_rows now_utc y (firstn (Config.numberOfDepartures config) deps) ;;
  Some ([Rectangle 0 0 (device_width rt - 1) (device_height rt - 1);
         Text time_x 5 (VStr now_local) FONT;
         Text 5 5 (VStr header) FONT]
        ++ match delays with
           | Some t => [Text 5 20 (VStr t) FONT]
           | None => []
           end
        ++ rows ++ [Display])%list.

(** *** The refresh loop (lines 356-369) *)

Record loop_state : Type := {
  next_fetch : Z;
  cached_deps : list call;
  cached_stop_infos : list pyval
}.

Definition initial_state : loop_state :=
  {| next_fetch := 0; cached_deps := []; cached_stop_infos := [] |}.

(** What one turn of the loop reads from outside: [time.time()], here in
    milliseconds; the instant of line 364 and the network, both used only
    when the turn fetches; the clock text and the instant of [draw_board]. *)
Record tick : Type := {
  time_ms : Z;
  fetch_now_utc : Z;
  post : string -> response;
  draw_now_local : string;
  draw_now_utc : Z
}.

(** Lines 362-366. *)
Definition refresh (tz : Z -> Z) (st : loop_state) (tk : tick) : loop_state :=
  if next_fetch st <=? time_ms tk then
    let '(deps, stop_infos) := get_all_departures (post tk) tz (fetch_now_utc tk) in
    {| next_fetch := time_ms tk + Config.refreshInterval config;
       cached_deps := deps;
       cached_stop_infos := stop_infos |}
  else st.

(** One turn: the state after it and the frame it shows. *)
Definition loop_turn (tz : Z -> Z) (st : loop_state) (tk : tick)
    : loop_state * exc (list draw_op) :=
  let st' := refresh tz st tk in
  (st', draw_board (cached_deps st') (cached_stop_infos st')
          (draw_now_local tk) (draw_now_utc tk)).

(** The frames of successive turns; the loop ends when a turn raises. *)
Fixpoint run (tz : Z -> Z) (st : loop_state) (ticks : list tick)
    : list (list draw_op) :=
  match ticks with
  | [] => []
  | tk :: rest =>
      let '(st', frame) := loop_turn tz st tk in
      match frame with
      | Some ops => ops :: run tz st' rest
      | None => []
      end
  end.

End Program.

(** ** A runtime to run the program on concrete inputs *)

Module CPython.

(** [list.sort(key=...)] as CPython 3.9 to 3.11 runs it on a list of fewer
    than 64 items, where the whole list is one run: [count_run] finds the
    ascending or strictly descending run the list starts with (a descending
    run is reversed in place) and [binarysort] inserts the remaining items
    one after the other.  The result is the content of the list when the
    sort ends and whether it ended without a raising comparison. *)
Section Listsort.
Context {A : Type}.
Variable key : A -> pyval.

(** [count_run] after its first comparison: how many more items continue
    the run. *)
Fixpoint run_length (descending : bool) (prev : A) (l : list A) : exc nat :=
  match l with
  | [] => Some O
  | x :: r =>
      b <- py_lt (key x) (key prev) ;;
      if Bool.eqb b descending
      then (n <- run_length descending x r ;; Some (S n))
      else Some O
  end.

(** The binary search of [binarysort] for the slot of [pivot] in [a]:
    [do p = l + ((r - l) >> 1); if pivot < a[p]: r = p else: l = p + 1
    while l < r]. *)
Fixpoint bsearch (fuel : nat) (pivot : A) (a : list A) (l r : nat) : exc nat :=
  match fuel with
  | O => Some l
  | S fuel' =>
      let p := (l + (r - l) / 2)%nat in
      b <- py_lt (key pivot) (key (nth p a pivot)) ;;
      let '(l', r') := if b then (l, p) else (S p, r) in
      if (l' <? r')%nat then bsearch fuel' pivot a l' r' else Some l'
  end.

Fixpoint binarysort (sorted rest : list A) : list A * bool :=
  match rest with
  | [] => (sorted, true)
  | pivot :: rest' =>
      match bsearch (List.length sorted) pivot sorted 0 (List.length sorted) with
      | Some l => binarysort (firstn l sorted ++ pivot :: skipn l sorted)%list rest'
      | None => ((sorted ++ rest)%list, false)
      end
  end.

Definition listsort (l : list A) : list A * bool :=
  match l with
  | x0 :: x1 :: r =>
      match (b <- py_lt (key x1) (key x0) ;;
             n <- run_length b x1 r ;;
             Some (b, (2 + n)%nat)) with
      | Some (descending, n) =>
          let run := firstn n l in
          binarysort (if descending then rev run else run) (skipn n l)
      | None => (l, false)
      end
  | _ => (l, true)
  end.
End Listsort.

End CPython.

(** [fromisoformat] on its documented format, a platform clock on UTC,
    CPython's sort of a short list, a fixed-pitch font of 7 by 12 pixels and
    the 256 by 64 panel. *)
Definition reference_runtime : runtime := {|
  fromisoformat := DT.fromisoformat;
  local_utcoffset := fun _ => Some 0;
  interrupted_sort := fun deps => fst (CPython.listsort sort_key deps);
  textbbox := fun x y s => (x, y, x + 7 * Z.of_nat (String.length s), y + 12);
  device_width := 256;
  device_height := 64
|}.

(** The built-in defaults of lines 91-105. *)
Definition tram_stop : Config.stop :=
  {| Config.id := "NSR:StopPlace:41939"; Config.name := "Tram Stop"; Config.type := "tram" |}.

Definition bus_stop : Config.stop :=
  {| Config.id := "NSR:StopPlace:41936"; Config.name := "Bus Stop"; Config.type := "bus" |}.

Definition default_config : Config.t := {|
  Config.stops := [tram_stop; bus_stop];
  Config.numberOfDepartures := 3;
  Config.refreshInterval := 30000
|}.

(** ** Notions used to state the properties *)

Definition with_stops (config : Config.t) (stops : list Config.stop) : Config.t :=
  {| Config.stops := stops;
     Config.numberOfDepartures := Config.numberOfDepartures config;
     Config.refreshInterval := Config.refreshInterval config |}.

(** The request for a stop ends in "not found" or "error". *)
Definition adapter_failed (r : response) : bool :=
  match r with
  | StopPlace _ _ => false
  | _ => true
  end.

(** The loop over the stops skips the stop. *)
Definition skipped (post : string -> response) (stop : Config.stop) : bool :=
  is_failure_name (fst (fetch_departures post (Config.id stop))).

(** The calls of the stops that are not skipped, in the order of the stops:
    the content of [deps] before it is sorted. *)
Definition surviving_calls (post : string -> response)
    (stops : list Config.stop) : list call :=
  flat_map (fun stop => if skipped post stop then []
                        else snd (fetch_departures post (Config.id stop)))
    stops.

(** The header entry of a stop that is not skipped. *)
Definition summary (rt : runtime) (post : string -> response) (tz : Z -> Z)
    (now_utc : Z) (stop : Config.stop) : pyval :=
  let '(stop_name, calls) := fetch_departures post (Config.id stop) in
  stop_info stop_name (next_arrival rt tz now_utc calls).

(** A call without [expectedArrivalTime]: [c.get] gives [None] for a missing
    key and for [null]. *)
Definition absent (v : pyval) : bool :=
  match v with
  | VNone => true
  | _ => false
  end.

(** The same responses, with the calls that lack [expectedArrivalTime]
    taken out of them. *)
Definition without_absent (post : string -> response) (stop_id : string)
    : response :=
  match post stop_id with
  | StopPlace name calls =>
      StopPlace name (filter (fun c => negb (absent (expectedArrivalTime c))) calls)
  | r => r
  end.

(** Every [expectedArrivalTime] of the responses is a string or is absent,
    as the type of the field in the GraphQL schema has it. *)
Definition time_typed (v : pyval) : Prop :=
  match v with
  | VNone | VStr _ => True
  | _ => False
  end.

Definition well_typed (post : string -> response) : Prop :=
  forall stop_id name calls,
    post stop_id = StopPlace name calls ->
    Forall (fun c => time_typed (expectedArrivalTime c)) calls.

(** Order of the sort keys that are strings. *)
Definition key_le (a b : pyval) : Prop :=
  match a, b with
  | VStr s, VStr t => String.leb s t = true
  | _, _ => False
  end.

Definition pyval_eqb (a b : pyval) : bool :=
  match a, b with
  | VNone, VNone => true
  | VBool x, VBool y => Bool.eqb x y
  | VInt x, VInt y => x =? y
  | VStr x, VStr y => (x =? y)%string
  | _, _ => false
  end.

Definition key_order {A : Type} (key : A -> pyval) (a b : A) : Prop :=
  key_le (key a) (key b).

Definition has_str_key {A : Type} (key : A -> pyval) (a : A) : Prop :=
  exists s, key a = VStr s.

(** [l'] is [l] sorted by [key] and stably so: the keys ascend, and the
    items of any one key are those of [l] in the order they have in [l]. *)
Definition stable_sorted {A : Type} (key : A -> pyval) (l l' : list A) : Prop :=
  StronglySorted (key_order key) l' /\
  forall k, filter (fun a => pyval_eqb (key a) k) l'
          = filter (fun a => pyval_eqb (key a) k) l.

(** The sort key of the call is a string, not a number. *)
Definition text_key (d : call) : bool :=
  match sort_key d with
  | VStr _ => true
  | _ => false
  end.

(** The key the sort would use if a timestamp that does not parse sorted as
    the empty string. *)
Definition parsed_key (rt : runtime) (d : call) : pyval :=
  match expectedArrivalTime d with
  | VStr s =>
      match fromisoformat rt (replace_Z s) with
      | Some _ => VStr s
      | None => VStr ""
      end
  | _ => VStr ""
  end.

(** [q] is [a / b] truncated toward zero: the integer next to the exact
    quotient on the side of zero. *)
Definition truncated (a b q : Z) : Prop :=
  (0 <= a -> q * b <= a < (q + 1) * b) /\
  (a <= 0 -> (q - 1) * b < a <= q * b).

(** [te] is later than [ta], as [datetime] compares them: two aware values
    by their instants, two naive values by their wall-clock readings; an
    aware and a naive value are not comparable. *)
Definition later (te ta : DT.datetime) : Prop :=
  match te, ta with
  | DT.Aware we oe, DT.Aware wa oa => wa - oa < we - oe
  | DT.Naive we, DT.Naive wa => wa < we
  | _, _ => False
  end.

(** The instant of a [datetime], a naive one being read in a zone of UTC
    offset [zone]. *)
Definition instant_in (zone : Z) (d : DT.datetime) : Z :=
  match d with
  | DT.Aware w o => w - o
  | DT.Naive w => w - zone
  end.

(** Both texts parse and the expected instant is strictly later than the
    aimed one, in whatever zone a text without offset is read. *)
Definition parsed_later (rt : runtime) (aimed expected : string) : Prop :=
  exists t_aim t_exp,
    fromisoformat rt (replace_Z aimed) = Some t_aim /\
    fromisoformat rt (replace_Z expected) = Some t_exp /\
    forall zone, - DT.US_PER_DAY < zone < DT.US_PER_DAY ->
                 instant_in zone t_aim < instant_in zone t_exp.

(** The time field the layout rule asks for, from the minute values the row
    displays. *)
Definition ruled_time_field (rt : runtime) (y : Z) (realtime : pyval)
    (scheduled updated : option Z) : list draw_op :=
  match scheduled, updated with
  | Some s, Some u =>
      if truthy realtime && negb (s =? u) then
        let b := textbbox rt 200 y (minutes_text s) in
        let x0 := fst (fst (fst b)) in
        let y0 := snd (fst (fst b)) in
        let x1 := snd (fst b) in
        let y1 := snd b in
        [Text 200 y (VStr (minutes_text s)) FONT;
         Line x0 ((y0 + y1) / 2) x1 ((y0 + y1) / 2);
         Text (x1 + 4) y (VStr (minutes_text u)) FONT]
      else [Text 200 y (VStr (minutes_text u)) FONT]
  | _, Some u => [Text 200 y (VStr (minutes_text u)) FONT]
  | _, None => [Text 200 y (VStr (minutes_text 0)) FONT]
  end.

(** Height of the first row: 32 under a delay row, 25 otherwise. *)
Definition first_row_y (rt : runtime) (deps : list call) : Z :=
  match delayed_routes rt deps with
  | [] => 25
  | _ :: _ => 32
  end.

(** ** Inputs of the scenarios *)

(** 2024-01-01T10:00:00Z *)
Definition ten_o_clock : Z := 63839700000000000.

Definition tram_call (expected aimed : pyval) (code : string) : call :=
  {| expectedArrivalTime := expected;
     aimedArrivalTime := aimed;
     realtime := VBool true;
     frontText := "Rikshospitalet";
     publicCode := VStr code;
     transportMode := VStr "tram" |}.

(** The tram stop answers with [calls] under [stop_name]; the bus stop is
    not found. *)
Definition tram_stop_only (stop_name : string) (calls : list call)
    (stop_id : string) : response :=
  if (stop_id =? "NSR:StopPlace:41939")%string
  then StopPlace (Some (VStr stop_name)) calls
  else NoStopPlace.

(** Scenario A: one call expected at 10:05, aimed at 10:00, realtime. *)
Definition scenario_A_call : call :=
  tram_call (VStr "2024-01-01T10:05:00Z") (VStr "2024-01-01T10:00:00Z") "17".

Definition scenario_A : string -> response :=
  tram_stop_only "Tram Stop" [scenario_A_call].

(** The frame of scenario A at 10:00:00. *)
Definition scenario_A_frame : list draw_op :=
  [Rectangle 0 0 255 63;
   Text 195 5 (VStr "10:00:00") FONT;
   Text 5 5 (VStr "Tram Stop 5m 10:05") FONT;
   Text 5 20 (VStr "Delays: 17") FONT;
   Icon 5 32 TramSymbol;
   Text 35 32 (VStr "17") FONT;
   Text 65 32 (VStr "Rikshospitalet") FONT;
   Text 200 32 (VStr " 0m") FONT;
   Line 200 38 221 38;
   Text 225 32 (VStr " 5m") FONT;
   Display].

(** Both stops answer.  The tram stop gives 10:07 before 10:05; the bus
    stop gives a call of 10:05 too, and a call without expected arrival. *)
Definition both_stops (stop_id : string) : response :=
  if (stop_id =? "NSR:StopPlace:41939")%string then
    StopPlace (Some (VStr "Tram Stop"))
      [tram_call (VStr "2024-01-01T10:07:00Z") VNone "17";
       tram_call (VStr "2024-01-01T10:05:00Z") VNone "18"]
  else if (stop_id =? "NSR:StopPlace:41936")%string then
    StopPlace (Some (VStr "Bus Stop"))
      [tram_call VNone (VStr "2024-01-01T10:01:00Z") "30";
       tram_call (VStr "2024-01-01T10:05:00Z") VNone "31"]
  else NoStopPlace.

(** A text that is no timestamp, ahead of a timestamp. *)
Definition unparseable_first : string -> response :=
  tram_stop_only "Tram Stop"
    [tram_call (VStr "zzz") VNone "17";
     tram_call (VStr "2024-01-01T10:05:00+00:00") VNone "18"].

(** The first three draw calls of a row at height [y]. *)
Definition row_columns (y : Z) (symbol : glyph) (dep : call) : list draw_op :=
  [Icon 5 y symbol;
   Text 35 y (publicCode dep) FONT;
   Text 65 y (VStr (take 18 (frontText dep))) FONT].

(** Two turns of the loop, one second apart, from 10:00:00: [time.time()]
    in milliseconds since 1970, the instants in microseconds since year 1. *)
Definition first_turn : tick :=
  {| time_ms := 1704103200000;
     fetch_now_utc := ten_o_clock;
     post := scenario_A;
     draw_now_local := "10:00:00";
     draw_now_utc := ten_o_clock |}.

Definition second_turn : tick :=
  {| time_ms := 1704103201000;
     fetch_now_utc := ten_o_clock + DT.US_PER_SECOND;
     post := scenario_A;
     draw_now_local := "10:00:01";
     draw_now_utc := ten_o_clock + DT.US_PER_SECOND |}.

(** ** Notions used to state the further properties *)

Definition is_icon (op : draw_op) : bool :=
  match op with
  | Icon _ _ _ => true
  | _ => false
  end.

(** The mode symbols of successive rows, from height [y] down. *)
Fixpoint icon_column (y : Z) (symbols : list glyph) : list draw_op :=
  match symbols with
  | [] => []
  | g :: rest => Icon 5 y g :: icon_column (y + 15) rest
  end.

(** The results of successive calls up to the first that raises. *)
Fixpoint until_raise {A : Type} (l : list (exc A)) : list A :=
  match l with
  | Some a :: rest => a :: until_raise rest
  | _ => []
  end.

Definition is_str (v : pyval) : bool :=
  match v with
  | VStr _ => true
  | _ => false
  end.

(** Strings in strictly ascending order. *)
Definition ascending (l : list string) : Prop :=
  StronglySorted (fun a b => String.compare a b = Lt) l.

(** The texts among which [get_all_departures] looks for the earliest
    arrival of a stop. *)
Definition arrival_candidates (calls : list call) : list pyval :=
  map expectedArrivalTime
    (filter (fun c => truthy (expectedArrivalTime c)) calls).

(** The instant of a parsed timestamp, one without offset being read in
    the zone of the platform; there is none when the platform gives no
    offset or when the instant falls outside the years 1 to 9999. *)
Definition utc_instant (rt : runtime) (d : DT.datetime) : option Z :=
  match d with
  | DT.Aware w o => if DT.in_range (w - o) then Some (w - o) else None
  | DT.Naive w =>
      match local_utcoffset rt w with
      | Some o => if DT.in_range (w - o) then Some (w - o) else None
      | None => None
      end
  end.

(** The next-arrival label the text [s] asks for at [now_utc]: nothing
    when [s] has no instant; otherwise the minutes from [now_utc] to the
    instant, never negative, and the wall-clock time of the instant in the
    zone [tz] as HH:MM, or [--:--] when that time falls outside the years
    1 to 9999. *)
Definition ruled_label (rt : runtime) (tz : Z -> Z) (now_utc : Z)
    (s : string) : string :=
  match fromisoformat rt (replace_Z s) with
  | Some d =>
      match utc_instant rt d with
      | Some u =>
          str_of_int (Z.max (DT.minutes_of_delta (u - now_utc)) 0) ++ "m " ++
          (if DT.in_range (u + tz u)
           then DT.strftime_HM (DT.Aware (u + tz u) (tz u))
           else "--:--")
      | None => ""
      end
  | None => ""
  end.


(** * Properties *)

(** ** The order of strings *)

Lemma ascii_compare_refl (c : ascii) : Ascii.compare c c = Eq.
Proof. unfold Ascii.compare. apply N.compare_refl. Qed.

Lemma ascii_compare_lt_trans (a b c : ascii) :
  Ascii.compare a b = Lt -> Ascii.compare b c = Lt -> Ascii.compare a c = Lt.
Proof.
  unfold Ascii.compare. rewrite !N.compare_lt_iff. apply N.lt_trans.
Qed.

Lemma string_compare_refl (s : string) : String.compare s s = Eq.
Proof.
  induction s as [|c s IH]; simpl; [reflexivity|].
  now rewrite ascii_compare_refl.
Qed.

Lemma string_compare_eq (s t : string) : String.compare s t = Eq <-> s = t.
Proof.
  split; [apply String.compare_eq_iff|].
  intros ->. apply string_compare_refl.
Qed.

Lemma string_compare_lt_trans (a b c : string) :
  String.compare a b = Lt -> String.compare b c = Lt -> String.compare a c = Lt.
Proof.
  revert b c. induction a as [|x a IH]; intros [|y b] [|z c]; simpl;
    try discriminate; try reflexivity.
  destruct (Ascii.compare x y) eqn:Hxy; try discriminate.
  - apply Ascii.compare_eq_iff in Hxy. subst y.
    destruct (Ascii.compare x z); try discriminate; auto.
    apply IH.
  - intros _. destruct (Ascii.compare y z) eqn:Hyz; try discriminate.
    + apply Ascii.compare_eq_iff in Hyz. subst z. now rewrite Hxy.
    + now rewrite (ascii_compare_lt_trans _ _ _ Hxy Hyz).
Qed.

Lemma string_leb_iff (s t : string) :
  String.leb s t = true <-> String.compare s t = Lt \/ s = t.
Proof.
  unfold String.leb. destruct (String.compare s t) eqn:H.
  - apply String.compare_eq_iff in H. tauto.
  - tauto.
  - split; [discriminate|]. intros [?| ->]; [discriminate|].
    now rewrite string_compare_refl in H.
Qed.

Lemma string_leb_trans (a b c : string) :
  String.leb a b = true -> String.leb b c = true -> String.leb a c = true.
Proof.
  rewrite !string_leb_iff. intros [H1| ->] [H2| ->]; auto.
  left. eapply string_compare_lt_trans; eauto.
Qed.

Lemma string_ltb_leb (s t : string) :
  String.ltb s t = true -> String.leb s t = true.
Proof.
  unfold String.ltb, String.leb. now destruct (String.compare s t).
Qed.

Lemma string_nltb_leb (s t : string) :
  String.ltb s t = false -> String.leb t s = true.
Proof.
  unfold String.ltb, String.leb. rewrite (String.compare_antisym s t).
  now destruct (String.compare t s).
Qed.

Lemma string_ltb_neq (s t : string) : String.ltb s t = true -> s <> t.
Proof.
  unfold String.ltb. intros H ->. now rewrite string_compare_refl in H.
Qed.

Lemma string_leb_empty (s : string) : String.leb "" s = true.
Proof. unfold String.leb. now destruct s. Qed.

(** ** The sort on keys that are strings *)

Section SortFacts.
Context {A : Type}.
Variable key : A -> pyval.

Local Abbreviation le := (key_order key).
Local Abbreviation str_key := (has_str_key key).

Lemma key_le_trans (a b c : A) : le a b -> le b c -> le a c.
Proof.
  unfold key_order, key_le.
  destruct (key a), (key b), (key c); try tauto.
  apply string_leb_trans.
Qed.

Lemma insert_by_total (x : A) (l : list A) :
  str_key x -> Forall str_key l -> exists l', insert_by key x l = Some l'.
Proof.
  intros [s Hs] Hl. induction Hl as [|y r [t Ht] _ [r' IH]]; simpl.
  - eauto.
  - rewrite Ht, Hs. simpl. destruct (String.ltb t s); [|eauto].
    rewrite IH. eauto.
Qed.

Lemma insert_by_perm (x : A) (l l' : list A) :
  insert_by key x l = Some l' -> Permutation (x :: l) l'.
Proof.
  revert l'. induction l as [|y r IH]; simpl; intros l' H.
  - injection H as <-. reflexivity.
  - destruct (py_lt (key y) (key x)) as [[|]|]; try discriminate.
    + destruct (insert_by key x r) as [r'|]; try discriminate.
      injection H as <-. rewrite perm_swap. now constructor; apply IH.
    + injection H as <-. reflexivity.
Qed.

Lemma insert_by_filter (k : pyval) (x : A) (l l' : list A) :
  str_key x -> Forall str_key l ->
  insert_by key x l = Some l' ->
  filter (fun a => pyval_eqb (key a) k) l'
  = filter (fun a => pyval_eqb (key a) k) (x :: l).
Proof.
  intros [s Hs] Hl. revert l'.
  induction Hl as [|y r [t Ht] _ IH]; simpl; intros l' H.
  - now injection H as <-.
  - rewrite Ht, Hs in H. simpl in H.
    destruct (String.ltb t s) eqn:Hlt.
    + destruct (insert_by key x r) as [r'|]; try discriminate.
      injection H as <-. simpl. rewrite (IH r' eq_refl). simpl.
      rewrite Ht, Hs.
      destruct k as [| | |u]; simpl; try reflexivity.
      destruct (String.eqb_spec s u), (String.eqb_spec t u);
        try reflexivity.
      subst. now apply string_ltb_neq in Hlt.
    + injection H as <-. simpl. now rewrite Ht, Hs.
Qed.

Lemma insert_by_sorted (x : A) (l l' : list A) :
  str_key x -> Forall str_key l ->
  StronglySorted le l ->
  insert_by key x l = Some l' -> StronglySorted le l'.
Proof.
  intros [s Hs] Hl Hsorted. revert l'.
  induction Hsorted as [|y r Hr IH Hy]; simpl; intros l' H.
  - injection H as <-. repeat constructor.
  - inversion Hl as [|? ? [t Ht] Hl']; subst.
    rewrite Ht, Hs in H. simpl in H.
    destruct (String.ltb t s) eqn:Hlt.
    + destruct (insert_by key x r) as [r'|] eqn:Hins; try discriminate.
      injection H as <-. constructor; [now apply IH|].
      apply insert_by_perm in Hins.
      eapply Permutation_Forall; [exact Hins|].
      constructor; [|exact Hy].
      unfold key_order, key_le. rewrite Ht, Hs. now apply string_ltb_leb.
    + injection H as <-.
      assert (Hxy : le x y).
      { unfold key_order, key_le. rewrite Ht, Hs. now apply string_nltb_leb. }
      constructor; [now constructor|].
      constructor; [exact Hxy|].
      eapply Forall_impl; [|exact Hy].
      intros a. now apply key_le_trans.
Qed.

Lemma sort_by_perm (l l' : list A) :
  sort_by key l = Some l' -> Permutation l l'.
Proof.
  revert l'. induction l as [|x r IH]; simpl; intros l' H.
  - now injection H as <-.
  - destruct (sort_by key r) as [r'|]; try discriminate.
    apply insert_by_perm in H. rewrite <- H. constructor. now apply IH.
Qed.

(** On keys that are strings the sort ends, and it is a stable sort. *)
Lemma sort_by_stable (l : list A) :
  Forall str_key l ->
  exists l', sort_by key l = Some l' /\ stable_sorted key l l'.
Proof.
  induction 1 as [|x r Hx Hr [r' [Hsort [Hsorted Hfilter]]]]; simpl.
  - exists []. repeat split. constructor.
  - rewrite Hsort.
    assert (Hr' : Forall str_key r').
    { eapply Permutation_Forall; [|exact Hr]. now apply sort_by_perm. }
    destruct (insert_by_total x r' Hx Hr') as [l' Hins].
    exists l'. split; [exact Hins|]. split.
    + eapply insert_by_sorted; eauto.
    + intros k. rewrite (insert_by_filter k x r' l' Hx Hr' Hins).
      simpl. now rewrite Hfilter.
Qed.
(** Keys of two kinds, comparable within a kind and not across: the sort
    raises exactly when it is given items of both kinds. *)
Variable kind : A -> bool.
Hypothesis lt_kind :
  forall a b, py_lt (key a) (key b) = None <-> kind a <> kind b.

Lemma insert_by_one_kind (x : A) (l : list A) :
  (forall y, In y l -> kind y = kind x) ->
  exists l', insert_by key x l = Some l'.
Proof.
  induction l as [|y r IH]; intros Hkind; simpl; [eauto|].
  destruct (py_lt (key y) (key x)) as [[|]|] eqn:Hlt.
  - destruct IH as [r' ->]; [|eauto]. intros z Hz. apply Hkind. now right.
  - eauto.
  - apply lt_kind in Hlt. exfalso. apply Hlt, Hkind. now left.
Qed.

Lemma sort_by_raises_iff (l : list A) :
  sort_by key l = None <->
  exists a b, In a l /\ In b l /\ kind a <> kind b.
Proof.
  induction l as [|x r IH]; simpl.
  - split; [discriminate|]. now intros [a [b [[] _]]].
  - destruct (sort_by key r) as [r'|] eqn:Hsort.
    + assert (Huniform : forall a b, In a r -> In b r -> kind a = kind b).
      { intros a b Ha Hb. destruct (Bool.bool_dec (kind a) (kind b)) as [|Hne];
          [assumption|].
        assert (Hex : exists a b, In a r /\ In b r /\ kind a <> kind b)
          by (exists a, b; auto).
        apply IH in Hex. discriminate. }
      pose proof (sort_by_perm _ _ Hsort) as Hperm.
      destruct r' as [|z r''].
      * apply Permutation_sym, Permutation_nil in Hperm. subst r. simpl.
        split; [discriminate|].
        intros [a [b [[<-|[]] [[<-|[]] Hne]]]]. now elim Hne.
      * assert (Hz : In z r).
        { eapply Permutation_in; [symmetry; exact Hperm|now left]. }
        destruct (Bool.bool_dec (kind z) (kind x)) as [Heq|Hne].
        -- destruct (insert_by_one_kind x (z :: r'')) as [l' ->].
           { intros y Hy. rewrite <- Heq. apply Huniform; [|exact Hz].
             eapply Permutation_in; [symmetry; exact Hperm|exact Hy]. }
           split; [discriminate|].
           intros [a [b [Ha [Hb Hab]]]]. exfalso. apply Hab.
           assert (Hall : forall c, In c (x :: r) -> kind c = kind x).
           { intros c [<-|Hc]; [reflexivity|].
             rewrite <- Heq. now apply Huniform. }
           now rewrite (Hall a Ha), (Hall b Hb).
        -- simpl. apply lt_kind in Hne. rewrite Hne.
           split; [intros _|reflexivity].
           exists z, x. repeat split; [now right|now left|].
           now apply lt_kind.
    + split; [intros _|reflexivity].
      destruct (proj1 IH eq_refl) as [a [b [Ha [Hb Hne]]]].
      exists a, b. repeat split; [now right|now right|exact Hne].
Qed.

End SortFacts.

(** ** The loop over the stops *)

Lemma filter_filter_absorb {A : Type} (f g : A -> bool) (l : list A) :
  (forall a, f a = true -> g a = true) ->
  filter f (filter g l) = filter f l.
Proof.
  intros Hfg. induction l as [|a l IH]; simpl; [reflexivity|].
  destruct (g a) eqn:Hg; simpl.
  - now rewrite IH.
  - destruct (f a) eqn:Hf; [|exact IH].
    apply Hfg in Hf. congruence.
Qed.

Lemma truthy_not_absent (v : pyval) : truthy v = true -> negb (absent v) = true.
Proof. now destruct v. Qed.

Lemma fetch_departures_without_absent (post : string -> response) (stop_id : string) :
  fetch_departures (without_absent post) stop_id = fetch_departures post stop_id.
Proof.
  unfold fetch_departures, without_absent.
  destruct (post stop_id) as [| | |name calls]; try reflexivity.
  f_equal. apply filter_filter_absorb.
  intros c. apply truthy_not_absent.
Qed.

Lemma fetch_departures_truthy (post : string -> response) (stop_id : string) :
  Forall (fun c => truthy (expectedArrivalTime c) = true)
    (snd (fetch_departures post stop_id)).
Proof.
  unfold fetch_departures.
  destruct (post stop_id) as [| | |name calls]; simpl; try constructor.
  apply Forall_forall. intros c Hc. now apply filter_In in Hc.
Qed.

Lemma adapter_failed_skipped (post : string -> response) (stop : Config.stop) :
  adapter_failed (post (Config.id stop)) = true -> skipped post stop = true.
Proof.
  unfold skipped, fetch_departures.
  now destruct (post (Config.id stop)).
Qed.

Lemma process_stop_skipped (rt : runtime) (post : string -> response)
    (tz : Z -> Z) (now_utc : Z) (acc : list call * list pyval) (stop : Config.stop) :
  skipped post stop = true -> process_stop rt post tz now_utc acc stop = acc.
Proof.
  unfold skipped, process_stop. destruct acc as [deps stop_infos].
  destruct (fetch_departures post (Config.id stop)) as [stop_name calls]. simpl.
  now intros ->.
Qed.

Lemma process_stop_step (rt : runtime) (post : string -> response)
    (tz : Z -> Z) (now_utc : Z) (deps : list call) (stop_infos : list pyval)
    (stop : Config.stop) :
  process_stop rt post tz now_utc (deps, stop_infos) stop
  = if skipped post stop then (deps, stop_infos)
    else ((deps ++ snd (fetch_departures post (Config.id stop)))%list,
          (stop_infos ++ [summary rt post tz now_utc stop])%list).
Proof.
  unfold process_stop, skipped, summary.
  destruct (fetch_departures post (Config.id stop)) as [stop_name calls].
  cbn [fst snd]. now destruct (is_failure_name stop_name).
Qed.

(** The loop appends, stop after stop, the calls and the header entry of
    each stop it does not skip. *)
Lemma process_stops (rt : runtime) (post : string -> response) (tz : Z -> Z)
    (now_utc : Z) (stops : list Config.stop) (deps : list call) (stop_infos : list pyval) :
  fold_left (process_stop rt post tz now_utc) stops (deps, stop_infos)
  = ((deps ++ surviving_calls post stops)%list,
     (stop_infos ++ map (summary rt post tz now_utc)
                      (filter (fun stop => negb (skipped post stop)) stops))%list).
Proof.
  revert deps stop_infos.
  induction stops as [|stop stops IH]; intros deps stop_infos.
  - cbn. now rewrite !app_nil_r.
  - cbn [fold_left filter]. rewrite process_stop_step.
    unfold surviving_calls. cbn [flat_map]. fold (surviving_calls post stops).
    destruct (skipped post stop); cbn [negb map]; rewrite IH.
    + reflexivity.
    + now rewrite <- !app_assoc.
Qed.

Lemma get_all_departures_unfold (rt : runtime) (config : Config.t)
    (post : string -> response) (tz : Z -> Z) (now_utc : Z) :
  get_all_departures rt config post tz now_utc
  = (sort_deps rt (surviving_calls post (Config.stops config)),
     map (summary rt post tz now_utc)
       (filter (fun stop => negb (skipped post stop)) (Config.stops config))).
Proof.
  unfold get_all_departures. now rewrite process_stops.
Qed.

Lemma surviving_calls_app (post : string -> response) (l1 l2 : list Config.stop) :
  surviving_calls post (l1 ++ l2)
  = (surviving_calls post l1 ++ surviving_calls post l2)%list.
Proof. unfold surviving_calls. apply flat_map_app. Qed.

Lemma surviving_calls_filter (post : string -> response)
    (keep : Config.stop -> bool) (stops : list Config.stop) :
  (forall stop, keep stop = false -> skipped post stop = true) ->
  surviving_calls post (filter keep stops) = surviving_calls post stops.
Proof.
  intros Hkeep. induction stops as [|stop stops IH]; simpl; [reflexivity|].
  destruct (keep stop) eqn:Hk; simpl.
  - now rewrite IH.
  - now rewrite (Hkeep stop Hk).
Qed.

Lemma summaries_filter (post : string -> response)
    (keep : Config.stop -> bool) (stops : list Config.stop) :
  (forall stop, keep stop = false -> skipped post stop = true) ->
  filter (fun stop => negb (skipped post stop)) (filter keep stops)
  = filter (fun stop => negb (skipped post stop)) stops.
Proof.
  intros Hkeep. induction stops as [|stop stops IH]; simpl; [reflexivity|].
  destruct (keep stop) eqn:Hk; simpl.
  - now rewrite IH.
  - now rewrite (Hkeep stop Hk).
Qed.

Lemma surviving_calls_truthy (post : string -> response) (stops : list Config.stop) :
  Forall (fun c => truthy (expectedArrivalTime c) = true)
    (surviving_calls post stops).
Proof.
  unfold surviving_calls. apply Forall_flat_map, Forall_forall.
  intros stop _. destruct (skipped post stop); [constructor|].
  apply fetch_departures_truthy.
Qed.

(** ** Aggregation: stops that fail *)

(** C6.  A stop whose request ends in "not found" or "error" adds nothing
    to the departures nor to the stop summaries: the aggregation returns
    what it returns when the failed stops are taken out of the
    configuration, and the other stops contribute, in the configured order,
    their calls and one header entry each. *)
Theorem failed_stop_contributes_nothing (rt : runtime) (config : Config.t)
    (post : string -> response) (tz : Z -> Z) (now_utc : Z) :
  let answered := fun stop => negb (adapter_failed (post (Config.id stop))) in
  let stops := Config.stops config in
  (forall stop acc,
      adapter_failed (post (Config.id stop)) = true ->
      process_stop rt post tz now_utc acc stop = acc) /\
  get_all_departures rt config post tz now_utc
  = get_all_departures rt (with_stops config (filter answered stops)) post tz now_utc /\
  get_all_departures rt config post tz now_utc
  = (sort_deps rt (surviving_calls post (filter answered stops)),
     map (summary rt post tz now_utc)
       (filter (fun stop => negb (skipped post stop)) (filter answered stops))).
Proof.
  intros answered stops.
  assert (Hkeep : forall stop, answered stop = false -> skipped post stop = true).
  { intros stop H. apply adapter_failed_skipped.
    unfold answered in H. now destruct (adapter_failed (post (Config.id stop))). }
  split; [|split].
  - intros stop acc H. apply process_stop_skipped. now apply adapter_failed_skipped.
  - rewrite !get_all_departures_unfold. simpl. fold stops.
    now rewrite surviving_calls_filter, summaries_filter.
  - rewrite get_all_departures_unfold. fold stops.
    now rewrite surviving_calls_filter, summaries_filter.
Qed.

(** C9.  A stop that the request reports under the name "Not Found" or
    "Error" is skipped like a failed one, whatever calls come with it: the
    loop leaves both sequences as they are, and the aggregation returns what
    it returns without that stop, wherever it stands among the stops. *)
Theorem sentinel_name_skips_stop (rt : runtime) (config : Config.t)
    (post : string -> response) (tz : Z -> Z) (now_utc : Z)
    (stop : Config.stop) (stop_name : string) (calls : list call) :
  post (Config.id stop) = StopPlace (Some (VStr stop_name)) calls ->
  stop_name = "Not Found" \/ stop_name = "Error" ->
  fetch_departures post (Config.id stop)
  = (VStr stop_name, filter (fun c => truthy (expectedArrivalTime c)) calls) /\
  (forall acc, process_stop rt post tz now_utc acc stop = acc) /\
  (forall before after,
      get_all_departures rt (with_stops config (before ++ stop :: after)) post tz now_utc
      = get_all_departures rt (with_stops config (before ++ after)) post tz now_utc).
Proof.
  intros Hpost Hname.
  assert (Hfetch : fetch_departures post (Config.id stop)
                   = (VStr stop_name, filter (fun c => truthy (expectedArrivalTime c)) calls)).
  { unfold fetch_departures. now rewrite Hpost. }
  assert (Hskip : skipped post stop = true).
  { unfold skipped. rewrite Hfetch. now destruct Hname as [-> | ->]. }
  split; [exact Hfetch|]. split.
  - intros acc. now apply process_stop_skipped.
  - intros before after. rewrite !get_all_departures_unfold.
    cbn [with_stops Config.stops].
    rewrite !surviving_calls_app, !filter_app.
    unfold surviving_calls at 2. cbn [flat_map filter].
    now rewrite Hskip.
Qed.

Lemma sentinel_name_skips_stop_witness :
  fetch_departures
    (tram_stop_only "Error" [scenario_A_call])
    (Config.id tram_stop)
  = (VStr "Error",
     filter (fun c => truthy (expectedArrivalTime c))
       [scenario_A_call]) /\
  get_all_departures reference_runtime (with_stops default_config ([] ++ tram_stop :: []))
    (tram_stop_only "Error" [scenario_A_call])
    DT.utc ten_o_clock
  = get_all_departures reference_runtime (with_stops default_config ([] ++ []))
      (tram_stop_only "Error" [scenario_A_call])
      DT.utc ten_o_clock.
Proof.
  destruct (sentinel_name_skips_stop reference_runtime default_config
              (tram_stop_only "Error" [scenario_A_call])
              DT.utc ten_o_clock tram_stop "Error" [scenario_A_call]
              eq_refl (or_intror eq_refl)) as [Hfetch [_ Hall]].
  split; [exact Hfetch|apply Hall].
Defined.

(** ** Aggregation: calls without an expected arrival *)

(** C7.  A call whose [expectedArrivalTime] is absent is dropped by the
    fetch: no call that reaches the aggregation lacks it, no departure of
    the sorted sequence does, and both results of the aggregation, the departures and the stop summaries with their
    next-arrival labels, are what they are when such calls are taken out of
    the responses beforehand. *)
Theorem absent_expected_time_discarded (rt : runtime) (config : Config.t)
    (post : string -> response) (tz : Z -> Z) (now_utc : Z) :
  (forall stop_id,
      Forall (fun c => absent (expectedArrivalTime c) = false)
        (snd (fetch_departures post stop_id))) /\
  Forall (fun c => absent (expectedArrivalTime c) = false)
    (surviving_calls post (Config.stops config)) /\
  fst (get_all_departures rt config post tz now_utc)
  = sort_deps rt (surviving_calls post (Config.stops config)) /\
  (forall sorted,
      sort_by sort_key (surviving_calls post (Config.stops config)) = Some sorted ->
      fst (get_all_departures rt config post tz now_utc) = sorted /\
      Forall (fun c => absent (expectedArrivalTime c) = false) sorted) /\
  get_all_departures rt config (without_absent post) tz now_utc
  = get_all_departures rt config post tz now_utc.
Proof.
  assert (Habs : forall v, truthy v = true -> absent v = false)
    by (now intros []).
  split; [|split; [|split; [|split]]].
  - intros stop_id. eapply Forall_impl; [|apply fetch_departures_truthy].
    intros c. apply Habs.
  - eapply Forall_impl; [|apply surviving_calls_truthy].
    intros c. apply Habs.
  - now rewrite get_all_departures_unfold.
  - intros sorted Hsort. rewrite get_all_departures_unfold. cbn [fst].
    unfold sort_deps. rewrite Hsort. split; [reflexivity|].
    eapply Permutation_Forall; [exact (sort_by_perm sort_key _ _ Hsort)|].
    eapply Forall_impl; [|apply surviving_calls_truthy].
    intros c. apply Habs.
  - rewrite !get_all_departures_unfold. f_equal.
    + f_equal. unfold surviving_calls. apply flat_map_ext. intros stop.
      unfold skipped. now rewrite fetch_departures_without_absent.
    + rewrite (filter_ext _ (fun stop => negb (skipped post stop))).
      * apply map_ext. intros stop. unfold summary.
        now rewrite fetch_departures_without_absent.
      * intros stop. unfold skipped.
        now rewrite fetch_departures_without_absent.
Qed.

(** ** Aggregation: the order of the departures *)

Lemma surviving_calls_typed (post : string -> response) (stops : list Config.stop) :
  well_typed post ->
  Forall (fun c => time_typed (expectedArrivalTime c)) (surviving_calls post stops).
Proof.
  intros Htyped. unfold surviving_calls. apply Forall_flat_map, Forall_forall.
  intros stop _. destruct (skipped post stop); [constructor|].
  unfold fetch_departures.
  destruct (post (Config.id stop)) as [| | |name calls] eqn:Hpost;
    simpl; try constructor.
  apply Forall_forall. intros c Hc. apply filter_In in Hc as [Hc _].
  specialize (Htyped _ _ _ Hpost). rewrite Forall_forall in Htyped. now apply Htyped.
Qed.

Lemma sort_key_of_text (d : call) :
  truthy (expectedArrivalTime d) = true ->
  time_typed (expectedArrivalTime d) ->
  exists s, expectedArrivalTime d = VStr s /\ s <> "" /\ sort_key d = VStr s.
Proof.
  unfold sort_key, or_empty. intros Htruthy Htyped. rewrite Htruthy.
  destruct (expectedArrivalTime d) as [| | |s]; simpl in *; try easy.
  exists s. repeat split. intros ->. discriminate.
Qed.

Lemma sort_key_kinds (a b : call) :
  py_lt (sort_key a) (sort_key b) = None <-> text_key a <> text_key b.
Proof.
  unfold text_key, sort_key, or_empty.
  destruct (expectedArrivalTime a) as [|[|]|n|s], (expectedArrivalTime b) as [|[|]|m|t];
    cbn [truthy];
    try destruct (n =? 0); try destruct (m =? 0);
    try destruct (s =? "")%string; try destruct (t =? "")%string;
    cbn; split; congruence.
Qed.

(** C1, as the program has it.  The aggregation never raises.  When every
    [expectedArrivalTime] of the responses is a string or absent, the sort
    ends and the departures are the calls of the stops that are not skipped,
    in the order of the stops, stably sorted by the text of
    [expectedArrivalTime] in the order of strings: the texts ascend and
    calls of one text keep the order of the stops.  The key of a departure
    is its text as it stands, whether or not it reads as a timestamp; only
    a missing or empty value has the empty string for key, which precedes
    every text.  The sort raises exactly when the keys are strings and
    numbers together; the departures are then the calls as the interrupted
    sort left them. *)
Theorem departures_sorted_by_text (rt : runtime) (config : Config.t)
    (post : string -> response) (tz : Z -> Z) (now_utc : Z) :
  let concatenated := surviving_calls post (Config.stops config) in
  let deps := fst (get_all_departures rt config post tz now_utc) in
  (well_typed post ->
   sort_by sort_key concatenated = Some deps /\
   stable_sorted sort_key concatenated deps /\
   (forall d, In d deps ->
      exists s, expectedArrivalTime d = VStr s /\ s <> "" /\ sort_key d = VStr s)) /\
  (forall d, truthy (expectedArrivalTime d) = false ->
     sort_key d = VStr "" /\ forall s, key_le (sort_key d) (VStr s)) /\
  (sort_by sort_key concatenated = None <->
   exists a b, In a concatenated /\ In b concatenated /\ text_key a <> text_key b) /\
  (sort_by sort_key concatenated = None ->
   deps = interrupted_sort rt concatenated).
Proof.
  intros concatenated deps.
  assert (Hdeps : deps = sort_deps rt concatenated).
  { unfold deps. now rewrite get_all_departures_unfold. }
  split; [|split; [|split]].
  - intros Htyped.
    assert (Hkeys : Forall (fun d => exists s, expectedArrivalTime d = VStr s /\
                                      s <> "" /\ sort_key d = VStr s) concatenated).
    { pose proof (surviving_calls_truthy post (Config.stops config)) as Ht.
      pose proof (surviving_calls_typed post (Config.stops config) Htyped) as Hs.
      fold concatenated in Ht, Hs. rewrite Forall_forall in *.
      intros d Hd. apply sort_key_of_text; auto. }
    assert (Hstr : Forall (has_str_key sort_key) concatenated).
    { eapply Forall_impl; [|exact Hkeys]. intros d [s [_ [_ Hs]]]. now exists s. }
    destruct (sort_by_stable sort_key concatenated Hstr) as [sorted [Hsort Hstable]].
    assert (Hsorted : deps = sorted).
    { rewrite Hdeps. unfold sort_deps. now rewrite Hsort. }
    rewrite Hsorted. split; [exact Hsort|]. split; [exact Hstable|].
    intros d Hd. rewrite Forall_forall in Hkeys. apply Hkeys.
    apply sort_by_perm in Hsort. eapply Permutation_in; [|exact Hd].
    now symmetry.
  - intros d Hd. unfold sort_key, or_empty. rewrite Hd. split; [reflexivity|].
    intros s. apply string_leb_empty.
  - apply (sort_by_raises_iff sort_key text_key sort_key_kinds).
  - intros Hnone. rewrite Hdeps. unfold sort_deps. now rewrite Hnone.
Qed.

Example both_stops_departures :
  get_all_departures reference_runtime default_config both_stops DT.utc ten_o_clock
  = ([tram_call (VStr "2024-01-01T10:05:00Z") VNone "18";
      tram_call (VStr "2024-01-01T10:05:00Z") VNone "31";
      tram_call (VStr "2024-01-01T10:07:00Z") VNone "17"],
     [VStr "Tram Stop 5m 10:05"; VStr "Bus Stop 5m 10:05"]).
Proof. vm_compute. reflexivity. Qed.

Lemma departures_sorted_by_text_witness :
  well_typed both_stops /\
  stable_sorted sort_key
    (surviving_calls both_stops (Config.stops default_config))
    (fst (get_all_departures reference_runtime default_config both_stops
            DT.utc ten_o_clock)).
Proof.
  assert (Htyped : well_typed both_stops).
  { intros stop_id name calls. unfold both_stops.
    destruct (stop_id =? "NSR:StopPlace:41939")%string;
      [|destruct (stop_id =? "NSR:StopPlace:41936")%string; [|discriminate]];
      intros H; injection H as _ <-; repeat constructor. }
  split; [exact Htyped|].
  exact (proj1 (proj2 (proj1 (departures_sorted_by_text reference_runtime
                                default_config both_stops DT.utc ten_o_clock)
                         Htyped))).
Defined.

(** C1, as the claim has it, fails: a text that does not read as a
    timestamp does not sort as the empty string.  The stop answers with the
    call of text "zzz" ahead of a call of 10:05; the aggregation returns the
    call of 10:05 first, so that the departures are not sorted by a key
    that is empty for the text that does not parse. *)
Lemma unparseable_time_not_first :
  let post := unparseable_first in
  let deps := fst (get_all_departures reference_runtime default_config post
                     DT.utc ten_o_clock) in
  map expectedArrivalTime (surviving_calls post (Config.stops default_config))
  = [VStr "zzz"; VStr "2024-01-01T10:05:00+00:00"] /\
  fromisoformat reference_runtime (replace_Z "zzz") = None /\
  map expectedArrivalTime deps = [VStr "2024-01-01T10:05:00+00:00"; VStr "zzz"] /\
  map (parsed_key reference_runtime) deps = [VStr "2024-01-01T10:05:00+00:00"; VStr ""] /\
  ~ stable_sorted (parsed_key reference_runtime)
      (surviving_calls post (Config.stops default_config)) deps.
Proof.
  intros post deps.
  assert (Hdeps : deps = [tram_call (VStr "2024-01-01T10:05:00+00:00") VNone "18";
                          tram_call (VStr "zzz") VNone "17"])
    by (vm_compute; reflexivity).
  rewrite Hdeps.
  split; [vm_compute; reflexivity|]. split; [vm_compute; reflexivity|].
  split; [vm_compute; reflexivity|]. split; [vm_compute; reflexivity|].
  intros [Hsorted _]. inversion Hsorted as [|d l _ Hfirst]; subst.
  inversion Hfirst as [|d' l' Hle _]; subst.
  vm_compute in Hle. discriminate.
Qed.

(** With CPython's sort, a sort that raises does not leave the departures
    in the order of the stops either: the run "b", "a" is reversed and "c"
    inserted before the comparison of the number 5 with a string raises. *)
Example interrupted_sort_reorders :
  let deps := [tram_call (VStr "b") VNone "1"; tram_call (VStr "a") VNone "2";
               tram_call (VStr "c") VNone "3"; tram_call (VInt 5) VNone "4"] in
  sort_by sort_key deps = None /\
  map expectedArrivalTime (sort_deps reference_runtime deps)
  = [VStr "a"; VStr "b"; VStr "c"; VInt 5].
Proof. split; vm_compute; reflexivity. Qed.

(** ** Minutes until an arrival *)

Lemma round_half_even_bounds (n d : Z) :
  0 < d -> n / d <= DT.round_half_even n d <= n / d + 1.
Proof.
  intros Hd. unfold DT.round_half_even.
  destruct (2 * (n mod d) <? d); [lia|].
  destruct (d <? 2 * (n mod d)); [lia|].
  destruct (Z.even (n / d)); lia.
Qed.

Lemma round_half_even_mono (n1 n2 d : Z) :
  0 < d -> n1 <= n2 -> DT.round_half_even n1 d <= DT.round_half_even n2 d.
Proof.
  intros Hd Hle.
  pose proof (Z.div_le_mono n1 n2 d Hd Hle) as Hq.
  destruct (Z.eq_dec (n1 / d) (n2 / d)) as [Heq|Hne].
  - assert (Hr : n1 mod d <= n2 mod d).
    { pose proof (Z.div_mod n1 d ltac:(lia)). pose proof (Z.div_mod n2 d ltac:(lia)).
      rewrite Heq in *. lia. }
    unfold DT.round_half_even. rewrite Heq.
    destruct (2 * (n1 mod d) <? d) eqn:E1;
      destruct (2 * (n2 mod d) <? d) eqn:E2;
      destruct (d <? 2 * (n1 mod d)) eqn:E3;
      destruct (d <? 2 * (n2 mod d)) eqn:E4;
      destruct (Z.even (n2 / d)); lia.
  - pose proof (round_half_even_bounds n1 d Hd).
    pose proof (round_half_even_bounds n2 d Hd). lia.
Qed.

Lemma round_half_even_lower (n d m : Z) :
  0 < d -> m * d <= n -> m <= DT.round_half_even n d.
Proof.
  intros Hd H. pose proof (round_half_even_bounds n d Hd).
  assert (m <= n / d) by (apply Z.div_le_lower_bound; lia). lia.
Qed.

(** Below a multiple of [d] by more than half of [d]: rounded below it. *)
Lemma round_half_even_upper (n d m s : Z) :
  0 < d -> n <= m * d - s -> d < 2 * s -> DT.round_half_even n d <= m - 1.
Proof.
  intros Hd H Hs.
  assert (Hq : n / d <= m - 1).
  { assert (n / d < m); [|lia]. apply Z.div_lt_upper_bound; lia. }
  destruct (Z.eq_dec (n / d) (m - 1)) as [Heq|Hne].
  - unfold DT.round_half_even.
    pose proof (Z.div_mod n d ltac:(lia)) as Hdm. rewrite Heq in Hdm.
    assert (2 * (n mod d) < d) by nia.
    destruct (2 * (n mod d) <? d) eqn:E; lia.
  - pose proof (round_half_even_bounds n d Hd). lia.
Qed.

Lemma spacing_pos (n d : Z) : 0 < DT.spacing n d.
Proof. unfold DT.spacing. apply Z.pow_pos_nonneg; lia. Qed.

Lemma nearest_double_nonneg (n d : Z) :
  0 <= n -> 0 < d -> 0 <= DT.nearest_double n d.
Proof.
  intros Hn Hd. unfold DT.nearest_double.
  pose proof (spacing_pos n d) as Hg.
  pose proof (round_half_even_bounds n (d * DT.spacing n d) ltac:(nia)).
  assert (0 <= n / (d * DT.spacing n d)) by (apply Z.div_pos; nia).
  nia.
Qed.

Lemma log2_bounds (f : Z) : 0 <= f -> f < 2 ^ (Z.log2 f + 1).
Proof.
  intros Hf. destruct (Z.eq_dec f 0) as [->|Hne].
  - reflexivity.
  - pose proof (Z.log2_spec f ltac:(lia)). replace (Z.log2 f + 1) with (Z.succ (Z.log2 f)) by lia. lia.
Qed.

Lemma nearest_double_mono (n1 n2 d : Z) :
  0 <= n1 -> 0 < d -> n1 <= n2 -> DT.nearest_double n1 d <= DT.nearest_double n2 d.
Proof.
  intros Hn Hd Hle.
  assert (Hf1 : 0 <= n1 / d) by (apply Z.div_pos; lia).
  pose proof (Z.div_le_mono n1 n2 d Hd Hle) as Hf.
  pose proof (Z.log2_le_mono _ _ Hf) as Hl.
  pose proof (Z.log2_nonneg (n1 / d)) as Hl1.
  unfold DT.nearest_double, DT.spacing.
  set (f1 := n1 / d) in *. set (f2 := n2 / d) in *.
  set (k1 := Z.max 0 (Z.log2 f1 - 52)). set (k2 := Z.max 0 (Z.log2 f2 - 52)).
  assert (Hk : k1 <= k2) by (unfold k1, k2; lia).
  assert (Hk1 : 0 <= k1) by (unfold k1; lia).
  assert (Hg1 : 0 < 2 ^ k1) by (apply Z.pow_pos_nonneg; lia).
  assert (Hg2 : 0 < 2 ^ k2) by (apply Z.pow_pos_nonneg; lia).
  destruct (Z.eq_dec k1 k2) as [Heq|Hne].
  - rewrite <- Heq. apply Z.mul_le_mono_nonneg_l; [lia|].
    apply round_half_even_mono; [nia|lia].
  - assert (Hlt : k1 + 1 <= k2) by lia.
    assert (H2 : 2 ^ (k2 + 52) <= 2 ^ k2 * DT.round_half_even n2 (d * 2 ^ k2)).
    { rewrite Z.pow_add_r by lia. apply Z.mul_le_mono_nonneg_l; [lia|].
      pose proof (round_half_even_bounds n2 (d * 2 ^ k2) ltac:(nia)) as Hb.
      rewrite <- Z.div_div in Hb by lia. fold f2 in Hb.
      assert (2 ^ 52 <= f2 / 2 ^ k2); [|lia].
      apply Z.div_le_lower_bound; [lia|].
      rewrite <- Z.pow_add_r by lia.
      assert (Hk2 : k2 = Z.log2 f2 - 52) by (unfold k2 in *; lia).
      assert (0 < f2).
      { destruct (Z.eq_dec f2 0) as [E|E]; [|lia].
        rewrite E in Hk2. cbn in Hk2. lia. }
      pose proof (Z.log2_spec f2 ltac:(lia)).
      replace (k2 + 52) with (Z.log2 f2) by lia. lia. }
    assert (H1 : 2 ^ k1 * DT.round_half_even n1 (d * 2 ^ k1) <= 2 ^ (k1 + 53)).
    { rewrite Z.pow_add_r by lia. apply Z.mul_le_mono_nonneg_l; [lia|].
      pose proof (round_half_even_bounds n1 (d * 2 ^ k1) ltac:(nia)) as Hb.
      rewrite <- Z.div_div in Hb by lia. fold f1 in Hb.
      assert (f1 / 2 ^ k1 < 2 ^ 53); [|lia].
      apply Z.div_lt_upper_bound; [lia|].
      rewrite <- Z.pow_add_r by lia.
      pose proof (log2_bounds f1 Hf1) as Hlb.
      eapply Z.lt_le_trans; [exact Hlb|].
      apply Z.pow_le_mono_r; unfold k1; lia. }
    assert (2 ^ (k1 + 53) <= 2 ^ (k2 + 52)) by (apply Z.pow_le_mono_r; lia).
    lia.
Qed.

Lemma round_to_double_mono (n1 n2 d : Z) :
  0 < d -> n1 <= n2 -> DT.round_to_double n1 d <= DT.round_to_double n2 d.
Proof.
  intros Hd Hle. unfold DT.round_to_double.
  destruct (n1 <? 0) eqn:E1; destruct (n2 <? 0) eqn:E2.
  - pose proof (nearest_double_mono (- n2) (- n1) d ltac:(lia) Hd ltac:(lia)). lia.
  - pose proof (nearest_double_nonneg (- n1) d ltac:(lia) Hd).
    pose proof (nearest_double_nonneg n2 d ltac:(lia) Hd). lia.
  - lia.
  - apply nearest_double_mono; lia.
Qed.

Lemma minutes_of_delta_mono (td1 td2 : Z) :
  td1 <= td2 -> DT.minutes_of_delta td1 <= DT.minutes_of_delta td2.
Proof.
  intros Hle. unfold DT.minutes_of_delta, DT.total_seconds.
  apply Z.quot_le_mono; [reflexivity|].
  apply round_to_double_mono; [lia|].
  apply round_to_double_mono; [reflexivity|].
  apply Z.mul_le_mono_nonneg_r; [|exact Hle]. unfold DT.UNIT. apply Z.pow_nonneg. lia.
Qed.

Lemma minutes_of_delta_0 : DT.minutes_of_delta 0 = 0.
Proof. reflexivity. Qed.

(** A tenth of a second is the double 3602879701896397 / 2^55, and the
    seconds up to the last microsecond of the year 9999 round to a whole
    minute. *)
Example total_seconds_tenth :
  DT.total_seconds 100000 = 3602879701896397 * 2 ^ 73.
Proof. vm_compute. reflexivity. Qed.

Example minutes_of_delta_rounds_up :
  DT.total_seconds 251698197599999999 = 251698197600 * DT.UNIT /\
  DT.minutes_of_delta 251698197599999999 = 4194969960 /\
  251698197599999999 / DT.US_PER_MINUTE = 4194969959.
Proof. vm_compute. now split. Qed.

Lemma pow2_split (a b : Z) : 0 <= a <= b -> 2 ^ b = 2 ^ a * 2 ^ (b - a).
Proof. intros H. rewrite <- Z.pow_add_r by lia. f_equal. lia. Qed.

Lemma log2_between (f lo hi : Z) :
  0 <= lo -> 2 ^ lo <= f -> f < 2 ^ hi -> lo <= Z.log2 f < hi.
Proof.
  intros Hlo H1 H2.
  assert (0 < f) by (pose proof (Z.pow_pos_nonneg 2 lo); lia).
  split.
  - apply Z.log2_le_pow2; lia.
  - apply Z.log2_lt_pow2; lia.
Qed.

(** The double nearest to a quotient, between two multiples of the spacing. *)
Lemma nearest_double_between (n d a lo hi s : Z) :
  0 < d -> 0 <= n ->
  52 <= a + 52 -> 2 ^ (a + 52) <= n / d -> n / d < 2 ^ (a + 53) ->
  lo * (d * 2 ^ a) <= n ->
  n <= hi * (d * 2 ^ a) - s -> d * 2 ^ a < 2 * s ->
  DT.spacing n d = 2 ^ a /\
  2 ^ a * lo <= DT.nearest_double n d <= 2 ^ a * hi - 2 ^ a /\
  2 ^ (a + 52) <= DT.nearest_double n d <= 2 ^ (a + 53).
Proof.
  intros Hd Hn Ha Hf1 Hf2 Hlo Hhi Hs.
  assert (Hl : Z.log2 (n / d) = a + 52).
  { pose proof (log2_between (n / d) (a + 52) (a + 53) ltac:(lia) Hf1 Hf2). lia. }
  assert (Hg : DT.spacing n d = 2 ^ a).
  { unfold DT.spacing. rewrite Hl. f_equal. lia. }
  assert (Hpos : 0 < 2 ^ a) by (apply Z.pow_pos_nonneg; lia).
  unfold DT.nearest_double. rewrite Hg.
  pose proof (round_half_even_lower n (d * 2 ^ a) lo ltac:(nia) Hlo) as H1.
  pose proof (round_half_even_upper n (d * 2 ^ a) hi s ltac:(nia) Hhi Hs) as H2.
  pose proof (round_half_even_bounds n (d * 2 ^ a) ltac:(nia)) as Hb.
  rewrite <- Z.div_div in Hb by lia.
  assert (Hq1 : 2 ^ 52 <= n / d / 2 ^ a).
  { apply Z.div_le_lower_bound; [lia|]. rewrite <- Z.pow_add_r by lia.
    replace (a + 52) with (a + 52) in Hf1 by lia. exact Hf1. }
  assert (Hq2 : n / d / 2 ^ a < 2 ^ 53).
  { apply Z.div_lt_upper_bound; [lia|]. rewrite <- Z.pow_add_r by lia. exact Hf2. }
  rewrite !(Z.pow_add_r 2 a) by lia.
  split; [reflexivity|]. split; nia.
Qed.

Lemma minutes_of_delta_exact (td : Z) :
  0 <= td < 2 ^ 34 * DT.US_PER_SECOND ->
  DT.minutes_of_delta td = td / DT.US_PER_MINUTE.
Proof.
  intros [H0 Hlt]. unfold DT.US_PER_SECOND in Hlt.
  destruct (Z.eq_dec td 0) as [->|Hne]; [reflexivity|].
  set (k := td / DT.US_PER_MINUTE).
  assert (Hk : DT.US_PER_MINUTE * k <= td < DT.US_PER_MINUTE * (k + 1)).
  { unfold k. pose proof (Z.div_mod td DT.US_PER_MINUTE ltac:(discriminate)).
    pose proof (Z.mod_pos_bound td DT.US_PER_MINUTE ltac:(reflexivity)). lia. }
  assert (Hk0 : 0 <= k) by (apply Z.div_pos; [lia|reflexivity]).
  unfold DT.US_PER_MINUTE, DT.US_PER_SECOND in Hk.
  assert (HU : 0 < DT.UNIT) by reflexivity.
  set (n := td * DT.UNIT).
  assert (Hn : 0 <= n) by (unfold n; nia).
  assert (Hf1 : 2 ^ 108 <= n / 1000000).
  { apply Z.div_le_lower_bound; [lia|].
    assert (1000000 * 2 ^ 108 <= DT.UNIT) by (vm_compute; discriminate). unfold n. nia. }
  assert (Hf2 : n / 1000000 < 2 ^ 162).
  { apply Z.div_lt_upper_bound; [lia|].
    assert (2 ^ 34 * 1000000 * DT.UNIT <= 1000000 * 2 ^ 162)
      by (vm_compute; discriminate).
    unfold n. nia. }
  pose proof (log2_between _ 108 162 ltac:(lia) Hf1 Hf2) as Hl.
  set (a := Z.log2 (n / 1000000) - 52) in *.
  assert (Ha : 56 <= a <= 109) by (unfold a; lia).
  assert (Hfa1 : 2 ^ (a + 52) <= n / 1000000).
  { replace (a + 52) with (Z.log2 (n / 1000000)) by (unfold a; lia).
    apply Z.log2_spec. lia. }
  assert (Hfa2 : n / 1000000 < 2 ^ (a + 53)).
  { replace (a + 53) with (Z.log2 (n / 1000000) + 1) by (unfold a; lia).
    apply log2_bounds. lia. }
  assert (HUa : DT.UNIT = 2 ^ a * 2 ^ (128 - a)) by (apply (pow2_split a 128); lia).
  assert (Hga : 0 < 2 ^ a) by (apply Z.pow_pos_nonneg; lia).
  assert (Hga' : 0 < 2 ^ (128 - a)) by (apply Z.pow_pos_nonneg; lia).
  assert (Hsmall : 1000000 * 2 ^ a < 2 * DT.UNIT).
  { assert (2 ^ a <= 2 ^ 109) by (apply Z.pow_le_mono_r; lia).
    assert (1000000 * 2 ^ 109 < 2 * DT.UNIT) by (vm_compute; reflexivity). lia. }
  destruct (nearest_double_between n 1000000 a (60 * k * 2 ^ (128 - a))
              (60 * (k + 1) * 2 ^ (128 - a)) DT.UNIT) as (Hg & Hx & Hxb);
    try lia.
  { unfold n. rewrite HUa. nia. }
  { unfold n. rewrite HUa. nia. }
  assert (Hsec : DT.total_seconds td = DT.nearest_double n 1000000).
  { unfold DT.total_seconds, DT.round_to_double. fold n.
    destruct (n <? 0) eqn:E; [lia|reflexivity]. }
  set (x := DT.nearest_double n 1000000) in *.
  assert (Hp52 : 2 ^ (a + 52) = 64 * 2 ^ (a + 46)).
  { replace (a + 52) with (6 + (a + 46)) by lia. rewrite Z.pow_add_r by lia. reflexivity. }
  assert (Hp53 : 2 ^ (a + 53) = 32 * 2 ^ (a + 48)).
  { replace (a + 53) with (5 + (a + 48)) by lia. rewrite Z.pow_add_r by lia. reflexivity. }
  assert (Hp46 : 0 < 2 ^ (a + 46)) by (apply Z.pow_pos_nonneg; lia).
  assert (Hp48 : 0 < 2 ^ (a + 48)) by (apply Z.pow_pos_nonneg; lia).
  assert (Hf1' : 2 ^ (a + 46) <= x / 60).
  { apply Z.div_le_lower_bound; lia. }
  assert (Hf2' : x / 60 < 2 ^ (a + 48)).
  { apply Z.div_lt_upper_bound; lia. }
  pose proof (log2_between _ (a + 46) (a + 48) ltac:(lia) Hf1' Hf2') as Hl'.
  set (a' := Z.log2 (x / 60) - 52) in *.
  assert (Ha' : a - 6 <= a' <= a - 5) by (unfold a'; lia).
  assert (Hfa1' : 2 ^ (a' + 52) <= x / 60).
  { replace (a' + 52) with (Z.log2 (x / 60)) by (unfold a'; lia).
    apply Z.log2_spec. lia. }
  assert (Hfa2' : x / 60 < 2 ^ (a' + 53)).
  { replace (a' + 53) with (Z.log2 (x / 60) + 1) by (unfold a'; lia).
    apply log2_bounds. lia. }
  assert (HUa' : DT.UNIT = 2 ^ a' * 2 ^ (128 - a')) by (apply (pow2_split a' 128); lia).
  assert (Hgb : 0 < 2 ^ a') by (apply Z.pow_pos_nonneg; lia).
  assert (Hgb' : 0 < 2 ^ (128 - a')) by (apply Z.pow_pos_nonneg; lia).
  assert (Hsmall' : 60 * 2 ^ a' < 2 * 2 ^ a).
  { assert (2 ^ a' <= 2 ^ (a - 5)) by (apply Z.pow_le_mono_r; lia).
    assert (2 ^ a = 32 * 2 ^ (a - 5)).
    { replace a with (5 + (a - 5)) at 1 by lia. rewrite Z.pow_add_r by lia. reflexivity. }
    assert (0 < 2 ^ (a - 5)) by (apply Z.pow_pos_nonneg; lia). lia. }
  destruct (nearest_double_between x 60 a' (k * 2 ^ (128 - a'))
              ((k + 1) * 2 ^ (128 - a')) (2 ^ a)) as (Hg' & Hy & Hyb);
    try lia.
  { replace (k * 2 ^ (128 - a') * (60 * 2 ^ a')) with (60 * k * (2 ^ a' * 2 ^ (128 - a'))) by ring.
    rewrite <- HUa'. rewrite HUa. nia. }
  { replace ((k + 1) * 2 ^ (128 - a') * (60 * 2 ^ a'))
      with (60 * (k + 1) * (2 ^ a' * 2 ^ (128 - a'))) by ring.
    rewrite <- HUa'. rewrite HUa. nia. }
  unfold DT.minutes_of_delta. rewrite Hsec.
  unfold DT.round_to_double. destruct (x <? 0) eqn:E; [lia|].
  set (y := DT.nearest_double x 60) in *.
  rewrite Z.quot_div_nonneg by lia.
  symmetry. apply (Z.div_unique y DT.UNIT k (y - DT.UNIT * k)); [|lia].
  left. rewrite HUa'. nia.
Qed.

Lemma nearest_double_0 (d : Z) : 0 < d -> DT.nearest_double 0 d = 0.
Proof.
  intros Hd. unfold DT.nearest_double, DT.spacing, DT.round_half_even.
  change (0 / d) with 0. change (2 ^ Z.max 0 (Z.log2 0 - 52)) with 1.
  change (0 / (d * 1)) with 0. change (0 mod (d * 1)) with 0.
  destruct (2 * 0 <? d * 1) eqn:E; lia.
Qed.

Lemma round_to_double_opp (n d : Z) :
  0 < d -> DT.round_to_double (- n) d = - DT.round_to_double n d.
Proof.
  intros Hd. unfold DT.round_to_double.
  destruct (Z.lt_trichotomy n 0) as [Hn|[->|Hn]].
  - destruct (- n <? 0) eqn:E1; [lia|]. destruct (n <? 0) eqn:E2; lia.
  - cbn [Z.opp Z.ltb Z.compare]. now rewrite nearest_double_0.
  - destruct (- n <? 0) eqn:E1; [|lia]. destruct (n <? 0) eqn:E2; [lia|].
    now rewrite Z.opp_involutive.
Qed.

Lemma minutes_of_delta_opp (td : Z) :
  DT.minutes_of_delta (- td) = - DT.minutes_of_delta td.
Proof.
  unfold DT.minutes_of_delta, DT.total_seconds.
  rewrite Z.mul_opp_l, !round_to_double_opp by reflexivity.
  apply Z.quot_opp_l. discriminate.
Qed.

(** While the duration stays below 2^34 seconds the two divisions lose
    nothing: the minutes are the exact quotient, truncated toward zero. *)
Lemma minutes_of_delta_truncated (td : Z) :
  Z.abs td < 2 ^ 34 * DT.US_PER_SECOND ->
  truncated td DT.US_PER_MINUTE (DT.minutes_of_delta td).
Proof.
  intros Hb. unfold truncated.
  assert (Hm : 0 < DT.US_PER_MINUTE) by reflexivity.
  split; intros Ha.
  - rewrite minutes_of_delta_exact by lia.
    pose proof (Z.div_mod td DT.US_PER_MINUTE ltac:(lia)).
    pose proof (Z.mod_pos_bound td DT.US_PER_MINUTE Hm). lia.
  - assert (Hq : DT.minutes_of_delta td = - (- td / DT.US_PER_MINUTE)).
    { rewrite <- (Z.opp_involutive td) at 1.
      now rewrite minutes_of_delta_opp, minutes_of_delta_exact by lia. }
    rewrite Hq.
    pose proof (Z.div_mod (- td) DT.US_PER_MINUTE ltac:(lia)).
    pose proof (Z.mod_pos_bound (- td) DT.US_PER_MINUTE Hm). nia.
Qed.

Lemma minutes_of_delta_nonpos (td : Z) : td <= 0 -> DT.minutes_of_delta td <= 0.
Proof.
  intros H. rewrite <- minutes_of_delta_0. now apply minutes_of_delta_mono.
Qed.

Lemma truncated_unique (a b q q' : Z) :
  0 < b -> truncated a b q -> truncated a b q' -> q = q'.
Proof.
  unfold truncated. intros Hb [Hp Hn] [Hp' Hn'].
  destruct (Z.le_ge_cases 0 a) as [Ha|Ha].
  - specialize (Hp Ha). specialize (Hp' Ha). nia.
  - specialize (Hn Ha). specialize (Hn' Ha). nia.
Qed.

Lemma minutes_from_nonneg (t : DT.datetime) (now_utc n : Z) :
  minutes_from t now_utc = Some n -> 0 <= n.
Proof.
  unfold minutes_from. destruct (DT.sub t (DT.at_utc now_utc)); [|discriminate].
  intros H. injection H as <-. apply Z.le_max_r.
Qed.

Lemma minutes_until_nonneg (rt : runtime) (v : pyval) (now_utc n : Z) :
  minutes_until rt v now_utc = Some (Some n) -> 0 <= n.
Proof.
  unfold minutes_until. destruct (truthy v); [|discriminate].
  destruct (replace_Z_val v); [|discriminate].
  destruct (fromisoformat rt s) as [d|]; [|discriminate].
  destruct (minutes_from d now_utc) as [m|] eqn:Hm; [|discriminate].
  intros H. injection H as <-. eapply minutes_from_nonneg; eauto.
Qed.

Lemma minutes_until_aware (rt : runtime) (s : string) (w o now_utc : Z) :
  s <> "" ->
  fromisoformat rt (replace_Z s) = Some (DT.Aware w o) ->
  minutes_until rt (VStr s) now_utc
  = Some (Some (Z.max (DT.minutes_of_delta (w - o - now_utc)) 0)).
Proof.
  intros Hs Hparse. unfold minutes_until. cbn [truthy replace_Z_val].
  destruct (String.eqb_spec s ""); [contradiction|]. cbn [negb].
  rewrite Hparse. unfold minutes_from. cbn [DT.sub DT.at_utc].
  now replace (w - o - (now_utc - 0)) with (w - o - now_utc) by lia.
Qed.

Lemma minutes_until_naive (rt : runtime) (s : string) (w now_utc : Z) :
  s <> "" ->
  fromisoformat rt (replace_Z s) = Some (DT.Naive w) ->
  minutes_until rt (VStr s) now_utc = None.
Proof.
  intros Hs Hparse. unfold minutes_until. cbn [truthy replace_Z_val].
  destruct (String.eqb_spec s ""); [contradiction|]. cbn [negb].
  now rewrite Hparse.
Qed.

Lemma astimezone_utc (rt : runtime) (d : DT.datetime) (w o : Z) :
  match d with
  | DT.Aware w' o' => w' = w /\ o' = o
  | DT.Naive w' => w' = w /\ local_utcoffset rt w = Some o
  end ->
  DT.in_range (w - o) = true ->
  DT.astimezone (local_utcoffset rt) DT.utc d = Some (DT.Aware (w - o) 0).
Proof.
  intros Hd Hrange. unfold DT.astimezone, DT.utc.
  destruct d as [w'|w' o']; destruct Hd as [-> Ho]; [rewrite Ho|subst o'];
    rewrite Hrange; replace (w - o + 0) with (w - o) by lia; now rewrite Hrange.
Qed.

Lemma minutes_from_utc (u now_utc : Z) :
  minutes_from (DT.Aware u 0) now_utc
  = Some (Z.max (DT.minutes_of_delta (u - now_utc)) 0).
Proof.
  unfold minutes_from. cbn [DT.sub DT.at_utc].
  now replace (u - 0 - (now_utc - 0)) with (u - now_utc) by lia.
Qed.

(** C4, as the program has it.  For a timestamp that parses with a UTC
    offset, the minutes until it are the difference to now, taken in
    seconds as a double, divided by 60 as doubles are, cut to an integer
    and raised to 0 when negative: this is the value of the row computation
    of [draw_board] and of the next-arrival computation of
    [get_all_departures], which first moves the timestamp to UTC.  The
    value is never negative, and it is 0 for an instant that is not after
    now.  While the difference stays below 2^34 seconds, about 544 years,
    the doubles lose nothing: the value is the exact quotient by 60 seconds,
    truncated toward zero, and no less than 0.  For a timestamp that parses
    without offset the row computation yields no value: the subtraction
    raises and both minute values of the row are set to absent; the
    next-arrival computation reads such a timestamp in the zone of the
    platform.  Whatever the value read, any minute value the program
    computes is non-negative. *)
Theorem minutes_until_rounded_and_clamped (rt : runtime) (s : string)
    (d : DT.datetime) (now_utc : Z) :
  s <> "" ->
  fromisoformat rt (replace_Z s) = Some d ->
  match d with
  | DT.Aware w o =>
      let td := w - o - now_utc in
      let mins := Z.max (DT.minutes_of_delta td) 0 in
      minutes_until rt (VStr s) now_utc = Some (Some mins) /\
      (DT.in_range (w - o) = true ->
       exists t_exp,
         DT.astimezone (local_utcoffset rt) DT.utc (DT.Aware w o) = Some t_exp /\
         minutes_from t_exp now_utc = Some mins) /\
      0 <= mins /\
      (w - o <= now_utc -> mins = 0) /\
      (Z.abs td < 2 ^ 34 * DT.US_PER_SECOND ->
       exists q, truncated td DT.US_PER_MINUTE q /\ mins = Z.max q 0)
  | DT.Naive w =>
      minutes_until rt (VStr s) now_utc = None /\
      (forall dep,
          aimedArrivalTime dep = VStr s \/ expectedArrivalTime dep = VStr s ->
          computed_minutes rt dep now_utc = (None, None) /\
          row_minutes rt dep now_utc = (None, None)) /\
      (forall o,
          local_utcoffset rt w = Some o -> DT.in_range (w - o) = true ->
          exists t_exp,
            DT.astimezone (local_utcoffset rt) DT.utc (DT.Naive w) = Some t_exp /\
            minutes_from t_exp now_utc
            = Some (Z.max (DT.minutes_of_delta (w - o - now_utc)) 0))
  end /\
  (forall v n, minutes_until rt v now_utc = Some (Some n) -> 0 <= n) /\
  (forall t n, minutes_from t now_utc = Some n -> 0 <= n).
Proof.
  intros Hs Hparse. split; [|split].
  - destruct d as [w|w o].
    + pose proof (minutes_until_naive rt s w now_utc Hs Hparse) as Hnone.
      split; [exact Hnone|]. split.
      * intros dep Hdep.
        assert (Hc : computed_minutes rt dep now_utc = (None, None)).
        { unfold computed_minutes. destruct Hdep as [Ha|He].
          - now rewrite Ha, Hnone.
          - rewrite He, Hnone.
            now destruct (minutes_until rt (aimedArrivalTime dep) now_utc). }
        split; [exact Hc|]. unfold row_minutes. now rewrite Hc.
      * intros o Ho Hrange. exists (DT.Aware (w - o) 0). split.
        -- now apply astimezone_utc.
        -- apply minutes_from_utc.
    + cbv zeta. split; [now apply minutes_until_aware|]. split; [|split; [|split]].
      * intros Hrange. exists (DT.Aware (w - o) 0). split.
        -- now apply astimezone_utc.
        -- apply minutes_from_utc.
      * apply Z.le_max_r.
      * intros Hpast.
        pose proof (minutes_of_delta_nonpos (w - o - now_utc) ltac:(lia)). lia.
      * intros Hb. exists (DT.minutes_of_delta (w - o - now_utc)).
        split; [now apply minutes_of_delta_truncated|reflexivity].
  - intros v n. apply minutes_until_nonneg.
  - intros t n. apply minutes_from_nonneg.
Qed.

Lemma minutes_until_rounded_and_clamped_witness :
  "2024-01-01T10:05:00Z" <> "" /\
  fromisoformat reference_runtime (replace_Z "2024-01-01T10:05:00Z")
  = Some (DT.Aware 63839700300000000 0) /\
  minutes_until reference_runtime (VStr "2024-01-01T10:05:00Z") ten_o_clock
  = Some (Some (Z.max (DT.minutes_of_delta 300000000) 0)) /\
  exists q, truncated 300000000 DT.US_PER_MINUTE q /\
            Z.max (DT.minutes_of_delta 300000000) 0 = Z.max q 0.
Proof.
  split; [discriminate|]. split; [reflexivity|].
  destruct (minutes_until_rounded_and_clamped reference_runtime
              "2024-01-01T10:05:00Z" (DT.Aware 63839700300000000 0) ten_o_clock
              ltac:(discriminate) eq_refl) as [[Hm [_ [_ [_ Hq]]]] _].
  split; [exact Hm|]. apply Hq. reflexivity.
Defined.

(** C4, as the claim has it, fails in two ways.  At 10:00:00 of 2024-01-01
    the last microsecond of the year 9999 is 4194969959 minutes and a
    fraction away; the program computes 4194969960, the seconds having
    been rounded to a whole minute when they became a double.  And for the
    timestamp 2024-01-01T10:05:00, which has no offset, the row computation
    yields no integer: both minute values of the row are absent, while the
    next-arrival computation finds 5 minutes. *)
Lemma minutes_not_the_truncated_quotient :
  let far := "9999-12-31T23:59:59.999999+00:00" in
  let bare := "2024-01-01T10:05:00" in
  fromisoformat reference_runtime (replace_Z far)
  = Some (DT.Aware 315537897599999999 0) /\
  truncated (315537897599999999 - 0 - ten_o_clock) DT.US_PER_MINUTE 4194969959 /\
  minutes_until reference_runtime (VStr far) ten_o_clock = Some (Some 4194969960) /\
  ~ (exists q,
        truncated (315537897599999999 - 0 - ten_o_clock) DT.US_PER_MINUTE q /\
        minutes_until reference_runtime (VStr far) ten_o_clock
        = Some (Some (Z.max q 0))) /\
  fromisoformat reference_runtime (replace_Z bare)
  = Some (DT.Naive 63839700300000000) /\
  minutes_until reference_runtime (VStr bare) ten_o_clock = None /\
  row_minutes reference_runtime (tram_call (VStr bare) VNone "17") ten_o_clock
  = (None, None) /\
  next_arrival reference_runtime DT.utc ten_o_clock
    [tram_call (VStr bare) VNone "17"] = "5m 10:05".
Proof.
  intros far bare.
  assert (Htrunc : truncated (315537897599999999 - 0 - ten_o_clock)
                     DT.US_PER_MINUTE 4194969959).
  { unfold truncated, ten_o_clock, DT.US_PER_MINUTE, DT.US_PER_SECOND. lia. }
  assert (Hcode : minutes_until reference_runtime (VStr far) ten_o_clock
                  = Some (Some 4194969960)) by (vm_compute; reflexivity).
  split; [vm_compute; reflexivity|]. split; [exact Htrunc|].
  split; [exact Hcode|]. split.
  { intros [q [Hq Hm]]. rewrite Hcode in Hm.
    assert (q = 4194969959)
      by (eapply truncated_unique; [|exact Hq|exact Htrunc]; reflexivity).
    subst q. discriminate. }
  split; [vm_compute; reflexivity|]. split; [vm_compute; reflexivity|].
  split; [vm_compute; reflexivity|]. vm_compute. reflexivity.
Qed.

(** ** The fallback between the two minute values *)

(** C5.  After the fallback the two minute values of a departure are both
    present or both absent; when exactly one was computed, the other has
    taken its value; so whenever one of them was absent after the
    computation, the two are equal afterwards.  Two computed values stay as
    they are. *)
Theorem fallback_fills_absent_side (rt : runtime) (dep : call) (now_utc : Z) :
  let computed := computed_minutes rt dep now_utc in
  let shown := row_minutes rt dep now_utc in
  (fst computed = None \/ snd computed = None -> fst shown = snd shown) /\
  (fst shown = None <-> snd shown = None) /\
  (forall m, fst computed = Some m -> snd computed = None ->
             shown = (Some m, Some m)) /\
  (forall m, fst computed = None -> snd computed = Some m ->
             shown = (Some m, Some m)) /\
  (forall s u, computed = (Some s, Some u) -> shown = (Some s, Some u)).
Proof.
  intros computed shown. unfold shown, row_minutes. fold computed.
  destruct computed as [[s|] [u|]]; cbn; repeat split;
    try congruence; try tauto; intros; try discriminate; try congruence.
  all: destruct H; discriminate.
Qed.

(** ** The delay test *)

Lemma gt_later (te ta : DT.datetime) : DT.gt te ta = Some true <-> later te ta.
Proof.
  unfold DT.gt, DT.sub, later.
  destruct te as [we|we oe], ta as [wa|wa oa]; cbn; split;
    try discriminate; try contradiction.
  - intros H. injection H as H. apply Z.ltb_lt in H. lia.
  - intros H. f_equal. apply Z.ltb_lt. lia.
  - intros H. injection H as H. apply Z.ltb_lt in H. lia.
  - intros H. f_equal. apply Z.ltb_lt. lia.
Qed.

Lemma truthy_str (s : string) : truthy (VStr s) = true <-> s <> "".
Proof.
  cbn. destruct (String.eqb_spec s ""); cbn; split; congruence.
Qed.

(** C3, as the program has it.  The delay test is a total function: it
    answers true exactly when both values are non-empty strings, both parse,
    and the expected time is later than the aimed one as [datetime] compares
    them, by instants when both carry a UTC offset and by wall-clock readings
    when neither does.  It answers false in every other case: a value that
    is absent, empty, not a string or does not parse, and a pair of which
    one timestamp carries an offset and the other does not. *)
Theorem is_delayed_iff (rt : runtime) (aimed expected : pyval) :
  is_delayed rt aimed expected = true <->
  exists a e t_aim t_exp,
    aimed = VStr a /\ expected = VStr e /\ a <> "" /\ e <> "" /\
    fromisoformat rt (replace_Z a) = Some t_aim /\
    fromisoformat rt (replace_Z e) = Some t_exp /\
    later t_exp t_aim.
Proof.
  unfold is_delayed, try_except. split.
  - destruct (truthy aimed) eqn:Ha; [|discriminate].
    destruct (truthy expected) eqn:He; [|discriminate]. cbn [andb].
    destruct aimed as [| | |a]; try discriminate.
    destruct expected as [| | |e];
      cbn [replace_Z_val]; try (destruct (fromisoformat rt _); discriminate).
    destruct (fromisoformat rt (replace_Z a)) as [t_aim|] eqn:Hpa; [|discriminate].
    destruct (fromisoformat rt (replace_Z e)) as [t_exp|] eqn:Hpe; [|discriminate].
    destruct (DT.gt t_exp t_aim) as [[|]|] eqn:Hgt; try discriminate.
    intros _. exists a, e, t_aim, t_exp.
    apply truthy_str in Ha. apply truthy_str in He. apply gt_later in Hgt.
    repeat split; assumption.
  - intros [a [e [t_aim [t_exp [-> [-> [Ha [He [Hpa [Hpe Hlater]]]]]]]]]].
    apply truthy_str in Ha. apply truthy_str in He. rewrite Ha, He.
    cbn [andb replace_Z_val]. rewrite Hpa, Hpe.
    apply gt_later in Hlater. now rewrite Hlater.
Qed.

(** C3, as the claim has it, fails.  Both texts parse and the expected one,
    four days after the aimed one, is the later instant in whatever zone
    the aimed text, which has no offset, is read; the test answers false,
    because the comparison of the two [datetime] values raises. *)
Lemma offset_mix_not_delayed :
  let aimed := "2024-01-01T10:00:00" in
  let expected := "2024-01-05T10:00:00+00:00" in
  fromisoformat reference_runtime (replace_Z aimed)
  = Some (DT.Naive 63839700000000000) /\
  fromisoformat reference_runtime (replace_Z expected)
  = Some (DT.Aware 63840045600000000 0) /\
  DT.gt (DT.Aware 63840045600000000 0) (DT.Naive 63839700000000000) = None /\
  parsed_later reference_runtime aimed expected /\
  is_delayed reference_runtime (VStr aimed) (VStr expected) = false /\
  ~ (is_delayed reference_runtime (VStr aimed) (VStr expected) = true <->
     parsed_later reference_runtime aimed expected).
Proof.
  intros aimed expected.
  assert (Hlater : parsed_later reference_runtime aimed expected).
  { exists (DT.Naive 63839700000000000), (DT.Aware 63840045600000000 0).
    split; [vm_compute; reflexivity|]. split; [vm_compute; reflexivity|].
    intros zone. unfold DT.US_PER_DAY, DT.US_PER_HOUR,
      DT.US_PER_MINUTE, DT.US_PER_SECOND. cbn [instant_in]. lia. }
  assert (Hcode : is_delayed reference_runtime (VStr aimed) (VStr expected) = false)
    by (vm_compute; reflexivity).
  split; [vm_compute; reflexivity|]. split; [vm_compute; reflexivity|].
  split; [reflexivity|]. split; [exact Hlater|]. split; [exact Hcode|].
  intros [_ H]. rewrite (H Hlater) in Hcode. discriminate.
Qed.

(** ** The rows of the board *)

Lemma time_field_ruled (rt : runtime) (y : Z) (realtime : pyval)
    (scheduled updated : option Z) :
  time_field rt y realtime scheduled updated
  = ruled_time_field rt y realtime scheduled updated.
Proof.
  unfold time_field, ruled_time_field, col_time_x.
  destruct scheduled as [s|], updated as [u|], (truthy realtime);
    cbn [andb negb]; try reflexivity.
  destruct (s =? u); cbn [negb]; [reflexivity|].
  now destruct (textbbox rt 200 y (minutes_text s)) as [[[b0 b1] b2] b3].
Qed.

Lemma draw_row_ruled (rt : runtime) (now_utc y : Z) (dep : call) (row : list draw_op) :
  draw_row rt now_utc y dep = Some row ->
  exists symbol,
    row = (row_columns y symbol dep
           ++ ruled_time_field rt y (realtime dep)
                (fst (row_minutes rt dep now_utc))
                (snd (row_minutes rt dep now_utc)))%list.
Proof.
  unfold draw_row. destruct (symbol_of (transportMode dep)) as [symbol|];
    [|discriminate].
  destruct (row_minutes rt dep now_utc) as [scheduled updated].
  unfold row_columns.
  destruct (publicCode dep) as [| | |line]; try discriminate.
  intros H. injection H as <-. exists symbol.
  now rewrite time_field_ruled.
Qed.

(** Row [i] of the rows drawn from height [y] stands at [y + 15 i]. *)
Lemma draw_rows_nth (rt : runtime) (now_utc : Z) (deps : list call) :
  forall (y : Z) (rows : list draw_op) (i : nat) (dep : call),
    draw_rows rt now_utc y deps = Some rows ->
    nth_error deps i = Some dep ->
    exists before after symbol,
      rows = (before
              ++ (row_columns (y + 15 * Z.of_nat i) symbol dep
                  ++ ruled_time_field rt (y + 15 * Z.of_nat i) (realtime dep)
                       (fst (row_minutes rt dep now_utc))
                       (snd (row_minutes rt dep now_utc)))
              ++ after)%list.
Proof.
  induction deps as [|d deps IH]; intros y rows i dep Hrows Hnth.
  - now destruct i.
  - cbn [draw_rows] in Hrows.
    destruct (draw_row rt now_utc y d) as [row|] eqn:Hrow; [|discriminate].
    destruct (draw_rows rt now_utc (y + 15) deps) as [rest|] eqn:Hrest;
      [|discriminate].
    injection Hrows as <-. destruct i as [|i].
    + injection Hnth as <-. apply draw_row_ruled in Hrow as [symbol ->].
      exists [], rest, symbol. now rewrite Z.mul_0_r, Z.add_0_r.
    + cbn [nth_error] in Hnth.
      destruct (IH _ _ _ _ Hrest Hnth) as [before [after [symbol ->]]].
      exists (row ++ before)%list, after, symbol.
      replace (y + 15 + 15 * Z.of_nat i) with (y + 15 * Z.of_nat (S i)) by lia.
      now rewrite <- (app_assoc row before).
Qed.

Lemma delayed_text_first_row (rt : runtime) (deps : list call) (delays : option string) :
  delayed_text (delayed_routes rt deps) = Some delays ->
  match delays with
  | Some _ => 32
  | None => 25
  end = first_row_y rt deps.
Proof.
  unfold delayed_text, first_row_y.
  destruct (delayed_routes rt deps) as [|code codes].
  - intros H. now injection H as <-.
  - destruct (strings_of (code :: codes)); [|discriminate].
    intros H. now injection H as <-.
Qed.

(** The frame of [draw_board]: the background, the clock, the header, the
    delay row if there is one, the rows and the commit. *)
Lemma draw_board_frame (rt : runtime) (config : Config.t) (deps : list call)
    (stop_infos : list pyval) (now_local : string) (now_utc : Z)
    (frame : list draw_op) :
  draw_board rt config deps stop_infos now_local now_utc = Some frame ->
  exists clock_x header delays rows,
    header_text stop_infos = Some header /\
    delayed_text (delayed_routes rt deps) = Some delays /\
    draw_rows rt now_utc (first_row_y rt deps)
      (firstn (Config.numberOfDepartures config) deps) = Some rows /\
    frame = ([Rectangle 0 0 (device_width rt - 1) (device_height rt - 1);
              Text clock_x 5 (VStr now_local) FONT;
              Text 5 5 (VStr header) FONT]
             ++ match delays with
                | Some t => [Text 5 20 (VStr t) FONT]
                | None => []
                end
             ++ rows ++ [Display])%list.
Proof.
  unfold draw_board.
  destruct (textbbox rt 0 0 now_local) as [[[b0 b1] b2] b3].
  destruct (header_text stop_infos) as [header|]; [|discriminate].
  destruct (delayed_text (delayed_routes rt deps)) as [delays|] eqn:Hdelays;
    [|discriminate].
  rewrite (delayed_text_first_row rt deps delays Hdelays).
  destruct (draw_rows rt now_utc (first_row_y rt deps) _) as [rows|] eqn:Hrows;
    [|discriminate].
  intros H. injection H as <-.
  exists (device_width rt - (b2 - b0) - 5), header, delays, rows. auto.
Qed.

Lemma app_middle {A : Type} (p d b x a e : list A) :
  ((p ++ d ++ b) ++ x ++ a ++ e = p ++ d ++ (b ++ x ++ a) ++ e)%list.
Proof. now rewrite <- !app_assoc. Qed.

Lemma frame_row (rt : runtime) (config : Config.t) (deps : list call)
    (stop_infos : list pyval) (now_local : string) (now_utc : Z)
    (frame : list draw_op) (i : nat) (dep : call) :
  draw_board rt config deps stop_infos now_local now_utc = Some frame ->
  nth_error (firstn (Config.numberOfDepartures config) deps) i = Some dep ->
  exists before after symbol,
    frame = (before
             ++ (row_columns (first_row_y rt deps + 15 * Z.of_nat i) symbol dep
                 ++ ruled_time_field rt (first_row_y rt deps + 15 * Z.of_nat i)
                      (realtime dep)
                      (fst (row_minutes rt dep now_utc))
                      (snd (row_minutes rt dep now_utc)))
             ++ after)%list.
Proof.
  intros Hframe Hnth.
  apply draw_board_frame in Hframe
    as [clock_x [header [delays [rows [_ [_ [Hrows ->]]]]]]].
  destruct (draw_rows_nth _ _ _ _ _ _ _ Hrows Hnth) as [before [after [symbol ->]]].
  eexists _, (after ++ [Display])%list, symbol.
  symmetry. apply app_middle.
Qed.

Example minutes_text_examples :
  minutes_text 0 = " 0m" /\ minutes_text 5 = " 5m" /\
  minutes_text 12 = "12m" /\ minutes_text 120 = "120m".
Proof. repeat split. Qed.

(** C2.  In a frame, the row of every rendered departure holds, after its
    symbol, line code and destination, the time field of the rule, at the
    height of the row.  If the departure is realtime and its scheduled and
    updated minutes are both present and differ, the field is the scheduled
    minutes at x = 200 as [f"{m:>2}m"], a line across the measured box of
    that text at the middle of its height, and the updated minutes 4 pixels
    right of the box; otherwise it is the updated minutes alone at x = 200,
    or 0 when there are none. *)
Theorem time_field_rule (rt : runtime) (config : Config.t) (deps : list call)
    (stop_infos : list pyval) (now_local : string) (now_utc : Z)
    (frame : list draw_op) (i : nat) (dep : call) :
  draw_board rt config deps stop_infos now_local now_utc = Some frame ->
  nth_error (firstn (Config.numberOfDepartures config) deps) i = Some dep ->
  let y := first_row_y rt deps + 15 * Z.of_nat i in
  let scheduled := fst (row_minutes rt dep now_utc) in
  let updated := snd (row_minutes rt dep now_utc) in
  let field := time_field rt y (realtime dep) scheduled updated in
  (exists before after symbol,
      frame = (before ++ (row_columns y symbol dep ++ field) ++ after)%list) /\
  (forall s u,
      truthy (realtime dep) = true -> scheduled = Some s -> updated = Some u ->
      s <> u ->
      exists x0 y0 x1 y1,
        textbbox rt 200 y (rjust 2 (str_of_int s) ++ "m") = (x0, y0, x1, y1) /\
        field = [Text 200 y (VStr (rjust 2 (str_of_int s) ++ "m")) FONT;
                 Line x0 ((y0 + y1) / 2) x1 ((y0 + y1) / 2);
                 Text (x1 + 4) y (VStr (rjust 2 (str_of_int u) ++ "m")) FONT]) /\
  (~ (truthy (realtime dep) = true /\
      exists s u, scheduled = Some s /\ updated = Some u /\ s <> u) ->
   field = [Text 200 y
              (VStr (rjust 2 (str_of_int match updated with
                                         | Some u => u
                                         | None => 0
                                         end) ++ "m")) FONT]) /\
  (updated = None <-> scheduled = None).
Proof.
  intros Hframe Hnth y scheduled updated field.
  split; [|split; [|split]].
  - destruct (frame_row _ _ _ _ _ _ _ _ _ Hframe Hnth)
      as [before [after [symbol ->]]].
    exists before, after, symbol. unfold field. now rewrite time_field_ruled.
  - intros s u Hrt Hs Hu Hne. unfold field, time_field, col_time_x.
    rewrite Hrt, Hs, Hu. destruct (Z.eqb_spec s u); [contradiction|].
    fold (minutes_text s). fold (minutes_text u).
    destruct (textbbox rt 200 y (minutes_text s)) as [[[x0 y0] x1] y1].
    now exists x0, y0, x1, y1.
  - intros Hnot. unfold field, time_field, col_time_x, minutes_text.
    destruct (truthy (realtime dep)); [|now destruct scheduled, updated].
    destruct scheduled as [s|], updated as [u|]; try reflexivity.
    destruct (Z.eqb_spec s u); [reflexivity|].
    exfalso. apply Hnot. split; [reflexivity|]. now exists s, u.
  - unfold scheduled, updated, row_minutes.
    destruct (computed_minutes rt dep now_utc) as [[s|] [u|]]; cbn;
      split; congruence.
Qed.

Lemma time_field_rule_witness :
  draw_board reference_runtime default_config [scenario_A_call]
    [VStr "Tram Stop 5m 10:05"] "10:00:00" ten_o_clock = Some scenario_A_frame /\
  nth_error (firstn (Config.numberOfDepartures default_config) [scenario_A_call]) 0
  = Some scenario_A_call /\
  exists x0 y0 x1 y1,
    textbbox reference_runtime 200 32 (rjust 2 (str_of_int 0) ++ "m") = (x0, y0, x1, y1) /\
    time_field reference_runtime 32 (realtime scenario_A_call) (Some 0) (Some 5)
    = [Text 200 32 (VStr (rjust 2 (str_of_int 0) ++ "m")) FONT;
       Line x0 ((y0 + y1) / 2) x1 ((y0 + y1) / 2);
       Text (x1 + 4) 32 (VStr (rjust 2 (str_of_int 5) ++ "m")) FONT].
Proof.
  assert (Hframe : draw_board reference_runtime default_config [scenario_A_call]
                     [VStr "Tram Stop 5m 10:05"] "10:00:00" ten_o_clock
                   = Some scenario_A_frame) by (vm_compute; reflexivity).
  split; [exact Hframe|]. split; [reflexivity|].
  destruct (time_field_rule reference_runtime default_config [scenario_A_call]
              [VStr "Tram Stop 5m 10:05"] "10:00:00" ten_o_clock
              scenario_A_frame 0 scenario_A_call Hframe eq_refl)
    as [_ [Hboth _]].
  apply (Hboth 0 5); [reflexivity|vm_compute; reflexivity|vm_compute; reflexivity|lia].
Defined.

(** ** The header *)

Lemma strings_of_strings (labels : list string) :
  strings_of (map VStr labels) = Some labels.
Proof.
  induction labels as [|label labels IH]; cbn; [reflexivity|].
  now rewrite IH.
Qed.

(** C10.  With no stop summary the header is the text "Departure Board";
    with summaries, which are strings, it is their join by " / " cut to its
    first 40 characters.  The header is the third draw call of a frame, at
    (5, 5). *)
Theorem header_text_of_summaries :
  header_text [] = Some "Departure Board" /\
  (forall label labels,
      header_text (map VStr (label :: labels))
      = Some (substring 0 40 (String.concat " / " (label :: labels)))) /\
  (forall rt config deps stop_infos now_local now_utc frame,
      draw_board rt config deps stop_infos now_local now_utc = Some frame ->
      exists header,
        header_text stop_infos = Some header /\
        nth_error frame 2 = Some (Text 5 5 (VStr header) FONT)).
Proof.
  split; [reflexivity|]. split.
  - intros label labels. unfold header_text, join.
    cbn [map]. change (VStr label :: map VStr labels) with (map VStr (label :: labels)).
    now rewrite strings_of_strings.
  - intros rt config deps stop_infos now_local now_utc frame Hframe.
    apply draw_board_frame in Hframe
      as [clock_x [header [delays [rows [Hheader [_ [_ ->]]]]]]].
    now exists header.
Qed.

(** ** The refresh loop *)

Lemma refresh_without_fetch (rt : runtime) (config : Config.t) (tz : Z -> Z)
    (st : loop_state) (tk : tick) :
  time_ms tk < next_fetch st -> refresh rt config tz st tk = st.
Proof.
  intros H. unfold refresh.
  destruct (Z.leb_spec (next_fetch st) (time_ms tk)); [lia|reflexivity].
Qed.

Lemma departures_ignore_fetch_clock (rt : runtime) (config : Config.t)
    (post : string -> response) (tz : Z -> Z) (now1 now2 : Z) :
  fst (get_all_departures rt config post tz now1)
  = fst (get_all_departures rt config post tz now2).
Proof. now rewrite !get_all_departures_unfold. Qed.

(** C8, as the program has it.  A turn of the loop that does not fetch
    leaves the cached departures and stop summaries as they are.  Every
    turn draws the cached snapshot with the instant that turn reads: the
    minute values of every row of its frame are computed from that one
    instant, so they are computed anew at every render.  The delay row is
    computed at every render too, from the cached departures alone.  The
    departures a fetch returns do not depend on the instant of the fetch;
    of the cached data, only the next-arrival labels of the stop summaries
    derive from it. *)
Theorem minutes_follow_render_clock (rt : runtime) (config : Config.t)
    (tz : Z -> Z) (st : loop_state) (tk : tick) :
  let st' := fst (loop_turn rt config tz st tk) in
  let shown := snd (loop_turn rt config tz st tk) in
  (time_ms tk < next_fetch st -> st' = st) /\
  shown = draw_board rt config (cached_deps st') (cached_stop_infos st')
            (draw_now_local tk) (draw_now_utc tk) /\
  (forall frame i dep,
      shown = Some frame ->
      nth_error (firstn (Config.numberOfDepartures config) (cached_deps st')) i
      = Some dep ->
      exists before after,
        frame = (before
                 ++ time_field rt (first_row_y rt (cached_deps st') + 15 * Z.of_nat i)
                      (realtime dep)
                      (fst (row_minutes rt dep (draw_now_utc tk)))
                      (snd (row_minutes rt dep (draw_now_utc tk)))
                 ++ after)%list) /\
  (forall frame,
      shown = Some frame ->
      exists delays,
        delayed_text (delayed_routes rt (cached_deps st')) = Some delays /\
        forall t, delays = Some t ->
                  nth_error frame 3 = Some (Text 5 20 (VStr t) FONT)) /\
  (forall post now1 now2,
      fst (get_all_departures rt config post tz now1)
      = fst (get_all_departures rt config post tz now2)).
Proof.
  intros st' shown. split; [|split; [|split; [|split]]].
  - intros H. unfold st', loop_turn. cbn [fst].
    now apply refresh_without_fetch.
  - reflexivity.
  - intros frame i dep Hframe Hnth. unfold shown, loop_turn in Hframe.
    cbn [snd] in Hframe. unfold st', loop_turn in *. cbn [fst] in *.
    destruct (frame_row _ _ _ _ _ _ _ _ _ Hframe Hnth)
      as [before [after [symbol ->]]].
    exists (before ++ row_columns
                        (first_row_y rt (cached_deps (refresh rt config tz st tk))
                         + 15 * Z.of_nat i) symbol dep)%list, after.
    rewrite time_field_ruled. now rewrite <- !app_assoc.
  - intros frame Hframe. unfold shown, loop_turn in Hframe.
    cbn [snd] in Hframe. unfold st', loop_turn. cbn [fst].
    apply draw_board_frame in Hframe
      as [clock_x [header [delays [rows [_ [Hdelays [_ ->]]]]]]].
    exists delays. split; [exact Hdelays|]. now intros t ->.
  - intros post now1 now2. apply departures_ignore_fetch_clock.
Qed.

(** C8, as the claim has it, fails.  The first turn fetches scenario A at
    10:00:00 and the second turn, one second later, fetches nothing and
    draws the same cached departure; its updated minutes are 5 in the first
    frame and 4 in the second. *)
Lemma minutes_change_between_renders :
  let rt := reference_runtime in
  let turn1 := loop_turn rt default_config DT.utc (initial_state) first_turn in
  let turn2 := loop_turn rt default_config DT.utc (fst turn1) second_turn in
  time_ms second_turn < next_fetch (fst turn1) /\
  fst turn2 = fst turn1 /\
  cached_deps (fst turn1) = [scenario_A_call] /\
  row_minutes rt scenario_A_call (fetch_now_utc first_turn) = (Some 0, Some 5) /\
  row_minutes rt scenario_A_call (draw_now_utc first_turn) = (Some 0, Some 5) /\
  row_minutes rt scenario_A_call (draw_now_utc second_turn) = (Some 0, Some 4) /\
  (exists frame1 frame2,
      snd turn1 = Some frame1 /\ snd turn2 = Some frame2 /\
      In (Text 225 32 (VStr " 5m") FONT) frame1 /\
      In (Text 225 32 (VStr " 4m") FONT) frame2 /\
      ~ In (Text 225 32 (VStr " 5m") FONT) frame2).
Proof.
  intros rt turn1 turn2.
  assert (H1 : turn1 = ({| next_fetch := 1704103230000;
                           cached_deps := [scenario_A_call];
                           cached_stop_infos := [VStr "Tram Stop 5m 10:05"] |},
                        Some scenario_A_frame))
    by (vm_compute; reflexivity).
  assert (H2 : turn2 = (fst turn1,
                        Some [Rectangle 0 0 255 63;
                              Text 195 5 (VStr "10:00:01") FONT;
                              Text 5 5 (VStr "Tram Stop 5m 10:05") FONT;
                              Text 5 20 (VStr "Delays: 17") FONT;
                              Icon 5 32 TramSymbol;
                              Text 35 32 (VStr "17") FONT;
                              Text 65 32 (VStr "Rikshospitalet") FONT;
                              Text 200 32 (VStr " 0m") FONT;
                              Line 200 38 221 38;
                              Text 225 32 (VStr " 4m") FONT;
                              Display]))
    by (rewrite H1; vm_compute; reflexivity).
  rewrite H2, H1. cbn [fst snd next_fetch cached_deps].
  split; [vm_compute; reflexivity|]. split; [reflexivity|].
  split; [reflexivity|]. split; [vm_compute; reflexivity|].
  split; [vm_compute; reflexivity|]. split; [vm_compute; reflexivity|].
  eexists _, _. split; [reflexivity|]. split; [reflexivity|].
  split; [|split].
  - unfold scenario_A_frame. cbn. tauto.
  - cbn. tauto.
  - cbn. intros H. repeat destruct H as [H|H]; try discriminate H. exact H.
Qed.

(** * Further properties *)

(** ** The cuts of the header and of the destination *)






(** ** The rows: how many, where, in which order *)

Lemma ruled_time_field_no_icon (rt : runtime) (y : Z) (realtime : pyval)
    (scheduled updated : option Z) :
  filter is_icon (ruled_time_field rt y realtime scheduled updated) = [].
Proof.
  unfold ruled_time_field.
  destruct scheduled as [s|], updated as [u|]; try reflexivity.
  now destruct (truthy realtime && negb (s =? u)).
Qed.

Lemma draw_rows_icons (rt : runtime) (now_utc : Z) (deps : list call) :
  forall (y : Z) (rows : list draw_op),
    draw_rows rt now_utc y deps = Some rows ->
    exists symbols,
      Forall2 (fun dep g => symbol_of (transportMode dep) = Some g) deps symbols /\
      filter is_icon rows = icon_column y symbols.
Proof.
  induction deps as [|d deps IH]; intros y rows Hrows.
  - injection Hrows as <-. exists []. split; [constructor|reflexivity].
  - cbn [draw_rows] in Hrows.
    destruct (draw_row rt now_utc y d) as [row|] eqn:Hrow; [|discriminate].
    destruct (draw_rows rt now_utc (y + 15) deps) as [rest|] eqn:Hrest;
      [|discriminate].
    injection Hrows as <-.
    destruct (IH _ _ Hrest) as [symbols [Hsymbols Hicons]].
    pose proof Hrow as Hsymbol. unfold draw_row in Hsymbol.
    destruct (symbol_of (transportMode d)) as [g|] eqn:Hg; [|discriminate].
    destruct (row_minutes rt d now_utc) as [scheduled updated].
    destruct (drawn_text (publicCode d)) as [line|]; [|discriminate].
    injection Hsymbol as <-.
    exists (g :: symbols). split; [now constructor|].
    rewrite filter_app, Hicons. cbn [filter is_icon].
    rewrite time_field_ruled, ruled_time_field_no_icon.
    reflexivity.
Qed.

Lemma icon_column_nth (symbols : list glyph) :
  forall (y : Z) (i : nat) (g : glyph),
    nth_error symbols i = Some g ->
    nth_error (icon_column y symbols) i = Some (Icon 5 (y + 15 * Z.of_nat i) g).
Proof.
  induction symbols as [|g0 symbols IH]; intros y i g Hnth.
  - now destruct i.
  - destruct i as [|i]; cbn [nth_error icon_column] in *.
    + injection Hnth as <-. now rewrite Z.mul_0_r, Z.add_0_r.
    + rewrite (IH _ _ _ Hnth). do 2 f_equal. lia.
Qed.

(** X3.  A frame holds one row for each of the first [numberOfDepartures]
    departures and for no other: its mode symbols, taken in the order they
    are drawn, are as many as the lesser of [numberOfDepartures] and the
    number of departures, each is the symbol of the departure of the same
    rank, and the symbol of rank [i] stands at x = 5, 15 i pixels under the
    first row. *)
Theorem rows_follow_departures (rt : runtime) (config : Config.t)
    (deps : list call) (stop_infos : list pyval) (now_local : string)
    (now_utc : Z) (frame : list draw_op) :
  draw_board rt config deps stop_infos now_local now_utc = Some frame ->
  exists symbols,
    List.length symbols
    = Nat.min (Config.numberOfDepartures config) (List.length deps) /\
    Forall2 (fun dep g => symbol_of (transportMode dep) = Some g)
      (firstn (Config.numberOfDepartures config) deps) symbols /\
    filter is_icon frame = icon_column (first_row_y rt deps) symbols /\
    (forall i g, nth_error symbols i = Some g ->
       nth_error (filter is_icon frame) i
       = Some (Icon 5 (first_row_y rt deps + 15 * Z.of_nat i) g)).
Proof.
  intros Hframe.
  apply draw_board_frame in Hframe
    as [clock_x [header [delays [rows [_ [_ [Hrows ->]]]]]]].
  destruct (draw_rows_icons _ _ _ _ _ Hrows) as [symbols [Hsymbols Hicons]].
  exists symbols.
  assert (Hfilter : filter is_icon
                      ([Rectangle 0 0 (device_width rt - 1) (device_height rt - 1);
                        Text clock_x 5 (VStr now_local) FONT;
                        Text 5 5 (VStr header) FONT]
                       ++ match delays with
                          | Some t => [Text 5 20 (VStr t) FONT]
                          | None => []
                          end ++ rows ++ [Display])%list
                    = icon_column (first_row_y rt deps) symbols).
  { rewrite !filter_app, Hicons. destruct delays; cbn; now rewrite app_nil_r. }
  split; [|split; [exact Hsymbols|split; [exact Hfilter|]]].
  - rewrite <- (Forall2_length Hsymbols). apply length_firstn.
  - intros i g Hnth. rewrite Hfilter. now apply icon_column_nth.
Qed.

Lemma rows_follow_departures_witness :
  exists symbols,
    List.length symbols
    = Nat.min (Config.numberOfDepartures default_config)
        (List.length [scenario_A_call]) /\
    filter is_icon scenario_A_frame
    = icon_column (first_row_y reference_runtime [scenario_A_call]) symbols.
Proof.
  destruct (rows_follow_departures reference_runtime default_config
              [scenario_A_call] [VStr "Tram Stop 5m 10:05"] "10:00:00"
              ten_o_clock scenario_A_frame ltac:(vm_compute; reflexivity))
    as [symbols [Hlen [_ [Hicons _]]]].
  exists symbols. split; [exact Hlen|exact Hicons].
Defined.

(** ** The delay row *)

Lemma string_compare_gt_lt (s t : string) :
  String.compare s t = Gt -> String.compare t s = Lt.
Proof.
  intros H. rewrite String.compare_antisym, H. reflexivity.
Qed.

Lemma insert_uniq_in (x s : string) (l : list string) :
  In s (insert_uniq x l) <-> s = x \/ In s l.
Proof.
  induction l as [|t r IH]; cbn [insert_uniq].
  - cbn. intuition.
  - destruct (String.compare x t) eqn:Hc; cbn [In].
    + apply String.compare_eq_iff in Hc. subst. intuition.
    + intuition.
    + rewrite IH. intuition.
Qed.

Lemma insert_uniq_ascending (x : string) (l : list string) :
  ascending l -> ascending (insert_uniq x l).
Proof.
  unfold ascending. induction 1 as [|t r Hr IH Ht]; cbn [insert_uniq].
  - repeat constructor.
  - destruct (String.compare x t) eqn:Hc.
    + now constructor.
    + constructor; [now constructor|]. constructor; [exact Hc|].
      eapply Forall_impl; [|exact Ht].
      intros u Hu. eapply string_compare_lt_trans; eauto.
    + constructor; [exact IH|].
      apply Forall_forall. intros u Hu. apply insert_uniq_in in Hu as [->|Hu].
      * now apply string_compare_gt_lt.
      * rewrite Forall_forall in Ht. now apply Ht.
Qed.

Lemma sorted_set_in (s : string) (l : list string) :
  In s (sorted_set l) <-> In s l.
Proof.
  unfold sorted_set. induction l as [|x l IH]; cbn [fold_right In]; [tauto|].
  rewrite insert_uniq_in, IH. intuition.
Qed.

Lemma sorted_set_ascending (l : list string) : ascending (sorted_set l).
Proof.
  unfold sorted_set. induction l as [|x l IH]; cbn [fold_right].
  - constructor.
  - now apply insert_uniq_ascending.
Qed.

Lemma strings_of_in (l : list pyval) (codes : list string) :
  strings_of l = Some codes -> forall s, In s codes <-> In (VStr s) l.
Proof.
  revert codes. induction l as [|v l IH]; intros codes H s.
  - injection H as <-. tauto.
  - cbn [strings_of] in H. destruct v as [| | |t]; try discriminate.
    destruct (strings_of l) as [codes'|]; [|discriminate].
    injection H as <-. cbn [In]. rewrite (IH codes' eq_refl s).
    split; intros [H|H]; auto; left; congruence.
Qed.

Lemma delayed_routes_in (rt : runtime) (deps : list call) (code : pyval) :
  In code (delayed_routes rt deps) <->
  exists dep, In dep deps /\
              is_delayed rt (aimedArrivalTime dep) (expectedArrivalTime dep) = true /\
              publicCode dep = code.
Proof.
  unfold delayed_routes. rewrite in_map_iff. split.
  - intros [dep [Hcode Hdep]]. apply filter_In in Hdep as [Hin Hdelayed]. eauto.
  - intros [dep [Hin [Hdelayed Hcode]]]. exists dep. split; [exact Hcode|].
    apply filter_In. auto.
Qed.

(** X4.  The delay row of a frame.  When no cached departure is delayed, the
    frame has no delay row and its rows start at y = 25.  When one is, the
    rows start at y = 32 and the fourth draw call is the text "Delays: "
    followed by line codes joined by ", ": the codes are in strictly
    ascending order, so none is repeated, and they are exactly the codes of
    the delayed departures, of all the cached ones, rendered in a row or
    not. *)
Theorem delay_row_lists_delayed_lines (rt : runtime) (config : Config.t)
    (deps : list call) (stop_infos : list pyval) (now_local : string)
    (now_utc : Z) (frame : list draw_op) :
  draw_board rt config deps stop_infos now_local now_utc = Some frame ->
  ((forall dep, In dep deps ->
      is_delayed rt (aimedArrivalTime dep) (expectedArrivalTime dep) = false) ->
   first_row_y rt deps = 25 /\
   forall t, ~ In (Text 5 20 (VStr ("Delays: " ++ t)) FONT) (firstn 4 frame)) /\
  ((exists dep, In dep deps /\
      is_delayed rt (aimedArrivalTime dep) (expectedArrivalTime dep) = true) ->
   first_row_y rt deps = 32 /\
   exists codes,
     nth_error frame 3
     = Some (Text 5 20 (VStr ("Delays: " ++ String.concat ", " codes)) FONT) /\
     ascending codes /\
     forall s, In s codes <->
               exists dep, In dep deps /\
                 is_delayed rt (aimedArrivalTime dep) (expectedArrivalTime dep) = true /\
                 publicCode dep = VStr s).
Proof.
  intros Hframe.
  apply draw_board_frame in Hframe
    as [clock_x [header [delays [rows [_ [Hdelays [Hrows ->]]]]]]].
  unfold first_row_y, delayed_text in *. split.
  - intros Hnone.
    assert (Hempty : delayed_routes rt deps = []).
    { destruct (delayed_routes rt deps) as [|code codes] eqn:Hroutes;
        [reflexivity|].
      assert (Hin : In code (delayed_routes rt deps))
        by (rewrite Hroutes; now left).
      apply delayed_routes_in in Hin as [dep [Hdep [Hdelayed _]]].
      rewrite (Hnone dep Hdep) in Hdelayed. discriminate. }
    rewrite Hempty in *. injection Hdelays as <-.
    split; [reflexivity|]. intros t Hin. cbn [app firstn] in Hin.
    destruct Hin as [H|[H|[H|Hin]]]; try discriminate.
    destruct (draw_rows_icons _ _ _ _ _ Hrows) as [symbols [Hsymbols _]].
    destruct (firstn (Config.numberOfDepartures config) deps) as [|d ds] eqn:Hfirst.
    + injection Hrows as <-. cbn in Hin. destruct Hin as [H|[]]. discriminate.
    + cbn [draw_rows] in Hrows.
      destruct (draw_row rt now_utc 25 d) as [row|] eqn:Hrow; [|discriminate].
      apply draw_row_ruled in Hrow as [symbol ->]. unfold row_columns in Hrows.
      destruct (draw_rows rt now_utc (25 + 15) ds); [|discriminate].
      injection Hrows as <-. cbn in Hin. destruct Hin as [H|[]]. discriminate.
  - intros [dep [Hdep Hdelayed]].
    assert (Hin : In (publicCode dep) (delayed_routes rt deps)).
    { apply delayed_routes_in. eauto. }
    destruct (delayed_routes rt deps) as [|code routes] eqn:Hroutes;
      [contradiction|].
    split; [reflexivity|].
    destruct (strings_of (code :: routes)) as [codes|] eqn:Hcodes;
      [|discriminate].
    injection Hdelays as <-. exists (sorted_set codes).
    split; [reflexivity|]. split; [apply sorted_set_ascending|].
    intros s. rewrite sorted_set_in, (strings_of_in _ _ Hcodes s), <- Hroutes.
    apply delayed_routes_in.
Qed.

Lemma delay_row_lists_delayed_lines_witness :
  first_row_y reference_runtime [scenario_A_call] = 32 /\
  exists codes,
    nth_error scenario_A_frame 3
    = Some (Text 5 20 (VStr ("Delays: " ++ String.concat ", " codes)) FONT) /\
    ascending codes.
Proof.
  destruct (delay_row_lists_delayed_lines reference_runtime default_config
              [scenario_A_call] [VStr "Tram Stop 5m 10:05"] "10:00:00"
              ten_o_clock scenario_A_frame ltac:(vm_compute; reflexivity))
    as [_ Hdelayed].
  destruct Hdelayed as [Hy [codes [Hrow [Hasc _]]]].
  - exists scenario_A_call. split; [now left|vm_compute; reflexivity].
  - split; [exact Hy|]. exists codes. split; [exact Hrow|exact Hasc].
Defined.

(** ** Delay and minutes agree *)

Lemma is_delayed_later (rt : runtime) (aimed expected : pyval) :
  is_delayed rt aimed expected = true ->
  exists a e t_aim t_exp,
    aimed = VStr a /\ expected = VStr e /\
    fromisoformat rt (replace_Z a) = Some t_aim /\
    fromisoformat rt (replace_Z e) = Some t_exp /\
    later t_exp t_aim.
Proof.
  unfold is_delayed, try_except.
  destruct (truthy aimed && truthy expected); [|discriminate].
  destruct aimed as [| | |a]; try discriminate. cbn [replace_Z_val].
  destruct (fromisoformat rt (replace_Z a)) as [t_aim|] eqn:Hpa; [|discriminate].
  destruct expected as [| | |e]; try discriminate. cbn [replace_Z_val].
  destruct (fromisoformat rt (replace_Z e)) as [t_exp|] eqn:Hpe; [|discriminate].
  destruct (DT.gt t_exp t_aim) as [[|]|] eqn:Hgt; try discriminate.
  intros _. exists a, e, t_aim, t_exp. apply gt_later in Hgt.
  repeat split; assumption || reflexivity.
Qed.

Lemma minutes_until_some (rt : runtime) (v : pyval) (now_utc m : Z) :
  minutes_until rt v now_utc = Some (Some m) ->
  exists s w o,
    v = VStr s /\ fromisoformat rt (replace_Z s) = Some (DT.Aware w o) /\
    m = Z.max (DT.minutes_of_delta (w - o - now_utc)) 0.
Proof.
  unfold minutes_until. destruct (truthy v); [|discriminate].
  destruct v as [| | |s]; try discriminate. cbn [replace_Z_val].
  destruct (fromisoformat rt (replace_Z s)) as [[w|w o]|] eqn:Hparse;
    try discriminate.
  unfold minutes_from. cbn [DT.sub DT.at_utc].
  replace (w - o - (now_utc - 0)) with (w - o - now_utc) by lia.
  intros H. injection H as <-. exists s, w, o.
  split; [reflexivity|]. split; [exact Hparse|reflexivity].
Qed.

(** X5.  A departure that the delay test counts as delayed never shows
    updated minutes below its scheduled minutes: when the row has both
    values, the scheduled one is at most the updated one. *)
Theorem delayed_minutes_ordered (rt : runtime) (dep : call) (now_utc s u : Z) :
  is_delayed rt (aimedArrivalTime dep) (expectedArrivalTime dep) = true ->
  row_minutes rt dep now_utc = (Some s, Some u) ->
  s <= u.
Proof.
  intros Hdelayed Hrow.
  apply is_delayed_later in Hdelayed
    as [a [e [t_aim [t_exp [Ha [He [Hpa [Hpe Hlater]]]]]]]].
  unfold row_minutes, computed_minutes, try_except in Hrow.
  destruct (minutes_until rt (aimedArrivalTime dep) now_utc) as [[ms|]|] eqn:Hs;
    destruct (minutes_until rt (expectedArrivalTime dep) now_utc) as [[mu|]|] eqn:Hu;
    cbn in Hrow; try discriminate; try (injection Hrow as <- <-; lia).
  injection Hrow as <- <-.
  apply minutes_until_some in Hs as [a' [wa [oa [Ha' [Hpa' ->]]]]].
  apply minutes_until_some in Hu as [e' [we [oe [He' [Hpe' ->]]]]].
  rewrite Ha in Ha'. injection Ha' as <-.
  rewrite He in He'. injection He' as <-.
  rewrite Hpa in Hpa'. injection Hpa' as ->.
  rewrite Hpe in Hpe'. injection Hpe' as ->.
  cbn [later] in Hlater.
  apply Z.max_le_compat_r. apply minutes_of_delta_mono. lia.
Qed.

Lemma delayed_minutes_ordered_witness : 0 <= 5.
Proof.
  apply (delayed_minutes_ordered reference_runtime scenario_A_call ten_o_clock 0 5).
  - vm_compute. reflexivity.
  - vm_compute. reflexivity.
Defined.

(** ** The loop between two fetches *)

Lemma loop_turn_without_fetch (rt : runtime) (config : Config.t) (tz : Z -> Z)
    (st : loop_state) (tk : tick) :
  time_ms tk < next_fetch st ->
  loop_turn rt config tz st tk
  = (st, draw_board rt config (cached_deps st) (cached_stop_infos st)
           (draw_now_local tk) (draw_now_utc tk)).
Proof.
  intros H. unfold loop_turn. now rewrite refresh_without_fetch.
Qed.

(** X6.  As long as the clock of the loop stays before [next_fetch], the
    loop draws every frame from the one cached snapshot, each with the
    clock readings of its own turn, until a frame raises; the network and
    the fetch clock of those turns are not looked at. *)
Theorem frames_between_fetches (rt : runtime) (config : Config.t)
    (tz : Z -> Z) (st : loop_state) (ticks : list tick) :
  Forall (fun tk => time_ms tk < next_fetch st) ticks ->
  run rt config tz st ticks
  = until_raise
      (map (fun tk => draw_board rt config (cached_deps st) (cached_stop_infos st)
                        (draw_now_local tk) (draw_now_utc tk))
         ticks).
Proof.
  induction 1 as [|tk ticks Htk _ IH]; cbn [run map until_raise];
    [reflexivity|].
  rewrite (loop_turn_without_fetch rt config tz st tk Htk).
  destruct (draw_board rt config (cached_deps st) (cached_stop_infos st)
              (draw_now_local tk) (draw_now_utc tk)); [|reflexivity].
  now rewrite IH.
Qed.

Lemma frames_between_fetches_witness :
  let st := fst (loop_turn reference_runtime default_config DT.utc
                   initial_state first_turn) in
  run reference_runtime default_config DT.utc st [second_turn]
  = until_raise
      (map (fun tk => draw_board reference_runtime default_config
                        (cached_deps st) (cached_stop_infos st)
                        (draw_now_local tk) (draw_now_utc tk))
         [second_turn]).
Proof.
  apply (frames_between_fetches reference_runtime default_config DT.utc).
  repeat constructor.
Defined.

(** X7.  From its initial state the loop fetches on its first turn, the
    time being not negative, and not again before [refreshInterval]
    milliseconds have passed: all the frames up to then are drawn from the
    result of that one aggregation. *)
Theorem first_turn_fetches (rt : runtime) (config : Config.t) (tz : Z -> Z)
    (tk : tick) (ticks : list tick) :
  0 <= time_ms tk ->
  Forall (fun tk' => time_ms tk' < time_ms tk + Config.refreshInterval config)
    ticks ->
  let snapshot := get_all_departures rt config (post tk) tz (fetch_now_utc tk) in
  run rt config tz initial_state (tk :: ticks)
  = until_raise
      (map (fun tk' => draw_board rt config (fst snapshot) (snd snapshot)
                         (draw_now_local tk') (draw_now_utc tk'))
         (tk :: ticks)).
Proof.
  intros Htime Hticks snapshot. cbn [run map until_raise].
  unfold loop_turn, refresh. cbn [initial_state next_fetch].
  destruct (Z.leb_spec 0 (time_ms tk)); [|lia]. fold snapshot.
  destruct snapshot as [deps stop_infos]. cbn [fst snd cached_deps cached_stop_infos].
  destruct (draw_board rt config deps stop_infos (draw_now_local tk)
              (draw_now_utc tk)); [|reflexivity].
  f_equal. clear -Hticks.
  induction Hticks as [|tk' ticks Htk' _ IH]; cbn [run map until_raise];
    [reflexivity|].
  rewrite loop_turn_without_fetch by exact Htk'.
  cbn [cached_deps cached_stop_infos].
  destruct (draw_board rt config deps stop_infos (draw_now_local tk')
              (draw_now_utc tk')); [|reflexivity].
  now rewrite IH.
Qed.

Lemma first_turn_fetches_witness :
  run reference_runtime default_config DT.utc initial_state
    [first_turn; second_turn]
  = until_raise
      (map (fun tk' => draw_board reference_runtime default_config
                         (fst (get_all_departures reference_runtime default_config
                                 (post first_turn) DT.utc (fetch_now_utc first_turn)))
                         (snd (get_all_departures reference_runtime default_config
                                 (post first_turn) DT.utc (fetch_now_utc first_turn)))
                         (draw_now_local tk') (draw_now_utc tk'))
         [first_turn; second_turn]).
Proof.
  apply (first_turn_fetches reference_runtime default_config DT.utc
           first_turn [second_turn]).
  - cbn. lia.
  - repeat constructor.
Defined.

(** ** The next-arrival label of a stop *)

Lemma filter_permutation {A : Type} (f : A -> bool) (l l' : list A) :
  Permutation l l' -> Permutation (filter f l) (filter f l').
Proof.
  induction 1 as [|x l l' _ IH|x y l|l l' l'' _ IH1 _ IH2]; cbn [filter].
  - constructor.
  - destruct (f x); [now constructor|exact IH].
  - destruct (f x), (f y); try reflexivity. apply perm_swap.
  - now transitivity (filter f l').
Qed.

(** The running minimum over strings ends on a least one of them. *)
Lemma min_from_least (texts : list string) :
  forall best,
  exists m,
    min_from (VStr best) (map VStr texts) = Some (VStr m) /\
    In m (best :: texts) /\
    forall x, In x (best :: texts) -> String.leb m x = true.
Proof.
  induction texts as [|t texts IH]; intros best; cbn [map min_from].
  - exists best. split; [reflexivity|]. split; [now left|].
    intros x [<-|[]]. apply string_leb_iff. now right.
  - cbn [py_lt]. destruct (String.ltb t best) eqn:Hlt.
    + destruct (IH t) as [m [Hmin [Hin Hle]]]. exists m.
      split; [exact Hmin|]. split.
      * destruct Hin as [<-|Hin]; [right; now left|right; now right].
      * intros x [<-|[<-|Hx]].
        -- eapply string_leb_trans; [apply Hle; now left|].
           now apply string_ltb_leb.
        -- apply Hle. now left.
        -- apply Hle. now right.
    + destruct (IH best) as [m [Hmin [Hin Hle]]]. exists m.
      split; [exact Hmin|]. split.
      * destruct Hin as [<-|Hin]; [now left|right; now right].
      * intros x [<-|[<-|Hx]].
        -- apply Hle. now left.
        -- eapply string_leb_trans; [apply Hle; now left|].
           now apply string_nltb_leb.
        -- apply Hle. now right.
Qed.

Lemma py_min_least (texts : list string) :
  texts <> [] ->
  exists m,
    py_min (map VStr texts) = Some (VStr m) /\
    In m texts /\
    forall x, In x texts -> String.leb m x = true.
Proof.
  destruct texts as [|t texts]; [congruence|]. intros _.
  cbn [map py_min]. apply min_from_least.
Qed.

Lemma py_min_permutation (texts texts' : list string) :
  Permutation texts texts' ->
  py_min (map VStr texts) = py_min (map VStr texts').
Proof.
  intros Hperm. destruct texts as [|t texts].
  - apply Permutation_nil in Hperm. now subst.
  - assert (Hne : texts' <> []).
    { intros ->. apply Permutation_sym, Permutation_nil in Hperm. discriminate. }
    destruct (py_min_least (t :: texts) ltac:(discriminate))
      as [m [Hmin [Hin Hle]]].
    destruct (py_min_least texts' Hne) as [m' [Hmin' [Hin' Hle']]].
    rewrite Hmin, Hmin'. do 2 f_equal. apply String.leb_antisym.
    + apply Hle. eapply Permutation_in; [symmetry; exact Hperm|exact Hin'].
    + apply Hle'. eapply Permutation_in; [exact Hperm|exact Hin].
Qed.

(** The texts among which [next_arrival] looks for the earliest. *)
Lemma arrival_texts (calls : list call) :
  Forall (fun c => time_typed (expectedArrivalTime c)) calls ->
  exists texts,
    map expectedArrivalTime
      (filter (fun c => truthy (expectedArrivalTime c)) calls)
    = map VStr texts /\
    forall s, In s texts <->
              s <> "" /\ exists c, In c calls /\ expectedArrivalTime c = VStr s.
Proof.
  induction 1 as [|c calls Hc _ [texts [Htexts Hin]]]; cbn [filter map].
  - exists []. split; [reflexivity|]. intros s. split; [intros []|].
    now intros [_ [c [[] _]]].
  - destruct (expectedArrivalTime c) as [| | |t] eqn:Ht; try contradiction.
    + exists texts. split; [exact Htexts|]. intros s. rewrite Hin.
      split; intros [Hs [c' [Hc' He]]]; (split; [exact Hs|]).
      * exists c'. split; [now right|exact He].
      * destruct Hc' as [<-|Hc']; [congruence|]. now exists c'.
    + cbn [truthy]. destruct (String.eqb_spec t "") as [->|Hne]; cbn [negb].
      * exists texts. split; [exact Htexts|]. intros s. rewrite Hin.
        split; intros [Hs [c' [Hc' He]]]; (split; [exact Hs|]).
        -- exists c'. split; [now right|exact He].
        -- destruct Hc' as [<-|Hc']; [congruence|]. now exists c'.
      * exists (t :: texts). cbn [map]. rewrite Ht, Htexts.
        split; [reflexivity|]. intros s. cbn [In]. rewrite Hin.
        split.
        -- intros [<-|[Hs [c' [Hc' He]]]].
           ++ split; [exact Hne|]. exists c. split; [now left|exact Ht].
           ++ split; [exact Hs|]. exists c'. split; [now right|exact He].
        -- intros [Hs [c' [[<-|Hc'] He]]].
           ++ left. congruence.
           ++ right. split; [exact Hs|]. now exists c'.
Qed.

Lemma string_length_append (a b : string) :
  String.length (a ++ b) = (String.length a + String.length b)%nat.
Proof. induction a as [|c a IH]; cbn; [reflexivity|now rewrite IH]. Qed.

Lemma two_digits_length (n : Z) :
  0 <= n < 100 -> String.length (DT.two_digits n) = 2%nat.
Proof.
  intros Hn.
  assert (Hall : forallb (fun k => Nat.eqb (String.length (DT.two_digits (Z.of_nat k))) 2)
                   (seq 0 100) = true) by (vm_compute; reflexivity).
  rewrite forallb_forall in Hall.
  specialize (Hall (Z.to_nat n)). rewrite Z2Nat.id in Hall by lia.
  apply Nat.eqb_eq, Hall, in_seq. lia.
Qed.

Lemma strftime_HM_length (d : DT.datetime) :
  String.length (DT.strftime_HM d) = 5%nat.
Proof.
  unfold DT.strftime_HM. rewrite !string_length_append.
  rewrite !two_digits_length; [reflexivity| |].
  - pose proof (Z.mod_pos_bound (DT.wall_of d / DT.US_PER_MINUTE) 60 ltac:(lia)).
    lia.
  - pose proof (Z.mod_pos_bound (DT.wall_of d / DT.US_PER_HOUR) 24 ltac:(lia)).
    lia.
Qed.

(** [d.astimezone(tz)] goes through the instant of [d]. *)
Lemma astimezone_instant (rt : runtime) (tz : Z -> Z) (d : DT.datetime) :
  DT.astimezone (local_utcoffset rt) tz d
  = match utc_instant rt d with
    | Some u =>
        if DT.in_range (u + tz u) then Some (DT.Aware (u + tz u) (tz u))
        else None
    | None => None
    end.
Proof.
  unfold DT.astimezone, utc_instant. destruct d as [w|w o].
  - destruct (local_utcoffset rt w) as [o|]; [|reflexivity].
    now destruct (DT.in_range (w - o)).
  - now destruct (DT.in_range (w - o)).
Qed.

Lemma utc_instant_in_range (rt : runtime) (d : DT.datetime) (u : Z) :
  utc_instant rt d = Some u -> DT.in_range u = true.
Proof.
  unfold utc_instant. destruct d as [w|w o].
  - destruct (local_utcoffset rt w) as [o|]; [|discriminate].
    destruct (DT.in_range (w - o)) eqn:E; [|discriminate].
    intros H. injection H as <-. exact E.
  - destruct (DT.in_range (w - o)) eqn:E; [|discriminate].
    intros H. injection H as <-. exact E.
Qed.

(** The label of a stop is the label its earliest candidate asks for. *)
Lemma next_arrival_label (rt : runtime) (tz : Z -> Z) (now_utc : Z)
    (calls : list call) :
  next_arrival rt tz now_utc calls
  = match py_min (arrival_candidates calls) with
    | Some (VStr s) => ruled_label rt tz now_utc s
    | _ => ""
    end.
Proof.
  unfold next_arrival, arrival_candidates. destruct calls as [|c calls];
    [reflexivity|].
  destruct (py_min _) as [[| | |s]|]; try reflexivity.
  cbn [replace_Z_val]. unfold ruled_label.
  destruct (fromisoformat rt (replace_Z s)) as [d|]; [|reflexivity].
  rewrite !astimezone_instant.
  destruct (utc_instant rt d) as [u|] eqn:Hu; [|reflexivity].
  unfold DT.utc. replace (u + 0) with u by lia.
  rewrite (utc_instant_in_range rt d u Hu), minutes_from_utc.
  cbn [try_except]. now destruct (DT.in_range (u + tz u)).
Qed.

(** X8.  For calls whose [expectedArrivalTime] is a string or absent, the
    next-arrival label of a stop is the label of the least non-empty
    [expectedArrivalTime] text of its calls, in the order of strings: the
    minutes from now to the instant of that text and its time in the local
    zone.  It is empty when no call has such a text, and it does not change
    when the calls come in another order. *)
Theorem next_arrival_of_earliest (rt : runtime) (tz : Z -> Z) (now_utc : Z)
    (calls calls' : list call) :
  Forall (fun c => time_typed (expectedArrivalTime c)) calls ->
  Permutation calls calls' ->
  next_arrival rt tz now_utc calls = next_arrival rt tz now_utc calls' /\
  ((forall c, In c calls -> truthy (expectedArrivalTime c) = false) ->
   next_arrival rt tz now_utc calls = "") /\
  ((exists c, In c calls /\ truthy (expectedArrivalTime c) = true) ->
   exists s,
     s <> "" /\
     (exists c, In c calls /\ expectedArrivalTime c = VStr s) /\
     (forall c t, In c calls -> expectedArrivalTime c = VStr t -> t <> "" ->
                  String.leb s t = true) /\
     next_arrival rt tz now_utc calls = ruled_label rt tz now_utc s).
Proof.
  intros Htyped Hperm.
  assert (Htyped' : Forall (fun c => time_typed (expectedArrivalTime c)) calls').
  { eapply Permutation_Forall; eauto. }
  destruct (arrival_texts calls Htyped) as [texts [Htexts Hin]].
  destruct (arrival_texts calls' Htyped') as [texts' [Htexts' Hin']].
  assert (Hperm_texts : Permutation texts texts').
  { assert (Hp : Permutation (map VStr texts) (map VStr texts')).
    { rewrite <- Htexts, <- Htexts'.
      now apply Permutation_map, filter_permutation. }
    destruct (Permutation_map_inv VStr texts' Hp) as [l3 [Hl3 Hp3]].
    assert (texts = l3).
    { clear -Hl3. revert l3 Hl3.
      induction texts as [|t texts IH]; intros [|u l3] H; try discriminate;
        [reflexivity|].
      injection H as -> H. f_equal. now apply IH. }
    subst l3. now symmetry. }
  rewrite !next_arrival_label. unfold arrival_candidates.
  rewrite Htexts, Htexts'. split; [|split].
  - now rewrite (py_min_permutation texts texts' Hperm_texts).
  - intros Hnone. destruct texts as [|t texts]; [reflexivity|].
    destruct (proj1 (Hin t) ltac:(now left)) as [Ht [c [Hc He]]].
    specialize (Hnone c Hc). rewrite He in Hnone.
    apply truthy_str in Ht. congruence.
  - intros [c [Hc Htruthy]].
    assert (Hne : texts <> []).
    { destruct (expectedArrivalTime c) as [| | |t] eqn:He; try discriminate.
      - rewrite Forall_forall in Htyped. specialize (Htyped c Hc).
        rewrite He in Htyped. contradiction.
      - rewrite Forall_forall in Htyped. specialize (Htyped c Hc).
        rewrite He in Htyped. contradiction.
      - apply truthy_str in Htruthy.
        assert (In t texts) by (apply Hin; split; [exact Htruthy|eauto]).
        now intros ->. }
    destruct (py_min_least texts Hne) as [m [Hm [Hmin_in Hle]]].
    rewrite Hm. exists m. apply Hin in Hmin_in as [Hm_ne Hm_call].
    split; [exact Hm_ne|]. split; [exact Hm_call|]. split; [|reflexivity].
    intros c' u Hc' Hu Hu_ne. apply Hle. apply Hin. split; [exact Hu_ne|eauto].
Qed.

Lemma next_arrival_of_earliest_witness :
  let calls := [tram_call (VStr "2024-01-01T10:07:00Z") VNone "17";
                tram_call (VStr "2024-01-01T10:05:00Z") VNone "18"] in
  next_arrival reference_runtime DT.utc ten_o_clock calls
  = next_arrival reference_runtime DT.utc ten_o_clock (rev calls) /\
  exists s,
    s <> "" /\
    (exists c, In c calls /\ expectedArrivalTime c = VStr s) /\
    (forall c t, In c calls -> expectedArrivalTime c = VStr t -> t <> "" ->
                 String.leb s t = true) /\
    next_arrival reference_runtime DT.utc ten_o_clock calls
    = ruled_label reference_runtime DT.utc ten_o_clock s.
Proof.
  intros calls.
  destruct (next_arrival_of_earliest reference_runtime DT.utc ten_o_clock
              calls (rev calls)) as [Hperm [_ Hleast]].
  - repeat constructor.
  - apply Permutation_rev.
  - split; [exact Hperm|]. apply Hleast.
    exists (tram_call (VStr "2024-01-01T10:07:00Z") VNone "17").
    split; [now left|reflexivity].
Defined.

(** X9.  The next-arrival label of a stop is read off the least of its
    candidate texts, as [min] finds it.  It is empty when there is no
    candidate, when [min] raises or finds something that is not a string,
    when the text does not parse, and when its instant cannot be taken in
    UTC.  Otherwise it is the count of minutes from now to that instant,
    never negative, the letter m, a space and a time of five characters:
    the wall-clock time of that instant in the local zone as HH:MM, or the
    placeholder [--:--] exactly when the conversion to the local zone
    raises. *)
Theorem next_arrival_shape (rt : runtime) (tz : Z -> Z) (now_utc : Z)
    (calls : list call) :
  match py_min (arrival_candidates calls) with
  | Some (VStr s) =>
      match fromisoformat rt (replace_Z s) with
      | Some d =>
          match DT.astimezone (local_utcoffset rt) DT.utc d with
          | Some t_exp =>
              let u := DT.wall_of t_exp in
              let mins := Z.max (DT.minutes_of_delta (u - now_utc)) 0 in
              utc_instant rt d = Some u /\
              0 <= mins /\
              match DT.astimezone (local_utcoffset rt) tz d with
              | Some t_local =>
                  t_local = DT.Aware (u + tz u) (tz u) /\
                  DT.in_range (u + tz u) = true /\
                  String.length (DT.strftime_HM t_local) = 5%nat /\
                  next_arrival rt tz now_utc calls
                  = str_of_int mins ++ "m " ++ DT.strftime_HM t_local
              | None =>
                  DT.in_range (u + tz u) = false /\
                  next_arrival rt tz now_utc calls
                  = str_of_int mins ++ "m " ++ "--:--"
              end
          | None => next_arrival rt tz now_utc calls = ""
          end
      | None => next_arrival rt tz now_utc calls = ""
      end
  | _ => next_arrival rt tz now_utc calls = ""
  end.
Proof.
  rewrite next_arrival_label.
  destruct (py_min (arrival_candidates calls)) as [[| | |s]|]; try reflexivity.
  unfold ruled_label.
  destruct (fromisoformat rt (replace_Z s)) as [d|]; [|reflexivity].
  rewrite !astimezone_instant.
  destruct (utc_instant rt d) as [u|] eqn:Hu; [|reflexivity].
  unfold DT.utc. replace (u + 0) with u by lia.
  rewrite (utc_instant_in_range rt d u Hu). cbn [DT.wall_of]. cbv zeta.
  split; [reflexivity|]. split; [apply Z.le_max_r|].
  destruct (DT.in_range (u + tz u)) eqn:Hlocal.
  - split; [reflexivity|]. split; [reflexivity|].
    split; [apply strftime_HM_length|reflexivity].
  - split; reflexivity.
Qed.

(** ** The layout of a frame *)

Lemma draw_rows_ops (rt : runtime) (now_utc : Z) (deps : list call) :
  forall (y : Z) (rows : list draw_op),
    draw_rows rt now_utc y deps = Some rows ->
    Forall (fun op => match op with
                      | Display | Rectangle _ _ _ _ => False
                      | _ => True
                      end) rows.
Proof.
  induction deps as [|d deps IH]; intros y rows Hrows.
  - injection Hrows as <-. constructor.
  - cbn [draw_rows] in Hrows.
    destruct (draw_row rt now_utc y d) as [row|] eqn:Hrow; [|discriminate].
    destruct (draw_rows rt now_utc (y + 15) deps) as [rest|] eqn:Hrest;
      [|discriminate].
    injection Hrows as <-. apply Forall_app. split; [|eapply IH; eauto].
    apply draw_row_ruled in Hrow as [symbol ->].
    apply Forall_app. split; [repeat constructor|].
    unfold ruled_time_field.
    destruct (fst (row_minutes rt d now_utc)) as [s|],
             (snd (row_minutes rt d now_utc)) as [u|];
      try (repeat constructor).
    destruct (truthy (realtime d) && negb (s =? u)); repeat constructor.
Qed.

(** X10.  Every frame starts by clearing the whole panel, then draws the
    clock text with its measured right edge 5 pixels from the right border,
    and ends with the one commit to the device: between the clock and the
    commit nothing clears the panel or commits. *)
Theorem frame_layout (rt : runtime) (config : Config.t) (deps : list call)
    (stop_infos : list pyval) (now_local : string) (now_utc : Z)
    (frame : list draw_op) :
  draw_board rt config deps stop_infos now_local now_utc = Some frame ->
  exists clock_x body,
    frame = (Rectangle 0 0 (device_width rt - 1) (device_height rt - 1)
             :: Text clock_x 5 (VStr now_local) FONT
             :: body ++ [Display])%list /\
    (forall x0 y0 x1 y1,
        textbbox rt 0 0 now_local = (x0, y0, x1, y1) ->
        clock_x + (x1 - x0) = device_width rt - 5) /\
    Forall (fun op => match op with
                      | Display | Rectangle _ _ _ _ => False
                      | _ => True
                      end) body.
Proof.
  unfold draw_board.
  destruct (textbbox rt 0 0 now_local) as [[[b0 b1] b2] b3].
  destruct (header_text stop_infos) as [header|]; [|discriminate].
  destruct (delayed_text (delayed_routes rt deps)) as [delays|]; [|discriminate].
  destruct (draw_rows rt now_utc _ _) as [rows|] eqn:Hrows; [|discriminate].
  intros H. injection H as <-.
  exists (device_width rt - (b2 - b0) - 5),
    (Text 5 5 (VStr header) FONT
     :: match delays with
        | Some t => [Text 5 20 (VStr t) FONT]
        | None => []
        end ++ rows)%list.
  split; [|split].
  - cbn [app]. now rewrite <- !app_assoc.
  - intros x0 y0 x1 y1 H. injection H as <- _ <- _. lia.
  - constructor; [exact I|]. apply Forall_app. split.
    + destruct delays; repeat constructor.
    + eapply draw_rows_ops; eauto.
Qed.

Lemma frame_layout_witness :
  exists clock_x body,
    scenario_A_frame
    = (Rectangle 0 0 (device_width reference_runtime - 1)
         (device_height reference_runtime - 1)
       :: Text clock_x 5 (VStr "10:00:00") FONT
       :: body ++ [Display])%list /\
    (forall x0 y0 x1 y1,
        textbbox reference_runtime 0 0 "10:00:00" = (x0, y0, x1, y1) ->
        clock_x + (x1 - x0) = device_width reference_runtime - 5).
Proof.
  destruct (frame_layout reference_runtime default_config [scenario_A_call]
              [VStr "Tram Stop 5m 10:05"] "10:00:00" ten_o_clock scenario_A_frame
              ltac:(vm_compute; reflexivity))
    as [clock_x [body [Hframe [Hclock _]]]].
  exists clock_x, body. split; [exact Hframe|exact Hclock].
Defined.

(** ** The mode symbol *)

Lemma lower_char_idempotent (c : ascii) :
  lower_char (lower_char c) = lower_char c.
Proof.
  destruct c as [[] [] [] [] [] [] [] []]; reflexivity.
Qed.

Lemma lower_idempotent (s : string) : lower (lower s) = lower s.
Proof.
  induction s as [|c s IH]; cbn [lower]; [reflexivity|].
  now rewrite lower_char_idempotent, IH.
Qed.

Lemma symbol_of_str (s : string) :
  symbol_of (VStr s)
  = Some (if (lower s =? "tram")%string then TramSymbol else BusSymbol).
Proof.
  unfold symbol_of, or_empty. cbn [truthy].
  destruct (String.eqb_spec s "") as [->|]; reflexivity.
Qed.

(** X11.  The row shows the tram symbol exactly for a transport mode that
    is a string reading "tram" once put in lower case, so in any mix of
    cases, and the bus symbol for every other string and for a mode that is
    missing, null, empty, zero or false.  A mode that is a number other than
    zero, or true, raises. *)
Theorem symbol_of_cases (mode : pyval) :
  (symbol_of mode = Some TramSymbol <->
   exists s, mode = VStr s /\ lower s = "tram") /\
  (truthy mode = false -> symbol_of mode = Some BusSymbol) /\
  (symbol_of mode = None <-> truthy mode = true /\ is_str mode = false) /\
  (forall s, mode = VStr s -> symbol_of mode = symbol_of (VStr (lower s))).
Proof.
  split; [|split; [|split]].
  - destruct mode as [|[|]|n|s]; cbn.
    + split; [discriminate|]. now intros [s [H _]].
    + split; [discriminate|]. now intros [s [H _]].
    + split; [discriminate|]. now intros [s [H _]].
    + unfold symbol_of, or_empty. cbn [truthy].
      destruct (n =? 0); cbn; (split; [discriminate|]); now intros [s [H _]].
    + rewrite symbol_of_str. destruct (String.eqb_spec (lower s) "tram").
      * split; [|reflexivity]. intros _. now exists s.
      * split; [discriminate|]. intros [t [H Ht]]. injection H as <-. contradiction.
  - unfold symbol_of, or_empty. now intros ->.
  - unfold symbol_of, or_empty.
    destruct mode as [|[|]|n|s]; cbn; try (split; [discriminate|intros [? ?]; discriminate]);
      try (split; [reflexivity|]; intros _; reflexivity);
      try (split; [intros _; now split|reflexivity]).
    + destruct (n =? 0); cbn.
      * split; [discriminate|]. intros [H _]. discriminate.
      * split; [intros _; now split|reflexivity].
    + destruct (s =? "")%string; cbn; split; try discriminate;
        intros [_ H]; discriminate.
  - intros s ->. rewrite !symbol_of_str. now rewrite lower_idempotent.
Qed.

(** ** What makes a frame raise *)

Lemma strings_of_none (l : list pyval) :
  strings_of l = None <-> exists v, In v l /\ is_str v = false.
Proof.
  induction l as [|v l IH]; cbn [strings_of].
  - split; [discriminate|]. now intros [v [[] _]].
  - destruct v as [| | |s];
      try (split; [intros _; eexists; split; [now left|reflexivity]|reflexivity]).
    destruct (strings_of l) as [codes|].
    + split; [discriminate|]. intros [v [[<-|Hv] Hstr]]; [discriminate|].
      assert (Hex : exists v, In v l /\ is_str v = false) by eauto.
      apply IH in Hex. discriminate.
    + split; [|reflexivity]. intros _.
      destruct (proj1 IH eq_refl) as [v [Hv Hstr]]. exists v. split; [now right|exact Hstr].
Qed.

Lemma draw_rows_raises (rt : runtime) (now_utc : Z) (deps : list call) (dep : call) :
  In dep deps -> symbol_of (transportMode dep) = None ->
  forall y, draw_rows rt now_utc y deps = None.
Proof.
  intros Hin Hsymbol. induction deps as [|d deps IH]; [contradiction|].
  intros y. cbn [draw_rows]. destruct Hin as [->|Hin].
  - unfold draw_row. now rewrite Hsymbol.
  - destruct (draw_row rt now_utc y d); [|reflexivity].
    now rewrite (IH Hin).
Qed.

(** X12.  [draw_board] raises, and the loop ends on that turn without
    showing a frame, in each of these cases: a stop summary is not a string,
    which is the summary of a stop whose name is not a string and that has
    no next-arrival label; a delayed departure has a line code that is not a
    string; a departure among the first [numberOfDepartures] has a transport
    mode that is a number other than zero, or true. *)
Theorem draw_board_raises (rt : runtime) (config : Config.t) (deps : list call)
    (stop_infos : list pyval) (now_local : string) (now_utc : Z) :
  (exists v, In v stop_infos /\ is_str v = false) \/
  (exists dep, In dep deps /\
     is_delayed rt (aimedArrivalTime dep) (expectedArrivalTime dep) = true /\
     is_str (publicCode dep) = false) \/
  (exists dep, In dep (firstn (Config.numberOfDepartures config) deps) /\
     truthy (transportMode dep) = true /\ is_str (transportMode dep) = false) ->
  draw_board rt config deps stop_infos now_local now_utc = None /\
  (forall tz st tk ticks,
      cached_deps (refresh rt config tz st tk) = deps ->
      cached_stop_infos (refresh rt config tz st tk) = stop_infos ->
      draw_now_local tk = now_local -> draw_now_utc tk = now_utc ->
      run rt config tz st (tk :: ticks) = []) /\
  (forall stop_name next_info,
      is_str (stop_info stop_name next_info) = false <->
      is_str stop_name = false /\ next_info = "").
Proof.
  intros Hcases.
  assert (Hraise : draw_board rt config deps stop_infos now_local now_utc = None).
  { unfold draw_board.
    destruct (textbbox rt 0 0 now_local) as [[[b0 b1] b2] b3].
    destruct Hcases as [Hinfo|[Hcode|Hmode]].
    - assert (Hheader : header_text stop_infos = None).
      { unfold header_text, join. destruct stop_infos as [|v infos].
        - now destruct Hinfo as [v [[] _]].
        - apply strings_of_none in Hinfo. now rewrite Hinfo. }
      now rewrite Hheader.
    - destruct (header_text stop_infos); [|reflexivity].
      assert (Hdelays : delayed_text (delayed_routes rt deps) = None).
      { destruct Hcode as [dep [Hdep [Hdelayed Hstr]]].
        assert (Hin : In (publicCode dep) (delayed_routes rt deps))
          by (apply delayed_routes_in; eauto).
        unfold delayed_text.
        destruct (delayed_routes rt deps) as [|code routes] eqn:Hroutes;
          [contradiction|].
        assert (Hnone : strings_of (code :: routes) = None)
          by (apply strings_of_none; eauto).
        now rewrite Hnone. }
      now rewrite Hdelays.
    - destruct (header_text stop_infos); [|reflexivity].
      destruct (delayed_text (delayed_routes rt deps)); [|reflexivity].
      destruct Hmode as [dep [Hdep [Htruthy Hstr]]].
      rewrite (draw_rows_raises rt now_utc _ dep Hdep); [reflexivity|].
      unfold symbol_of, or_empty. rewrite Htruthy.
      now destruct (transportMode dep). }
  split; [exact Hraise|]. split.
  - intros tz st tk ticks Hdeps Hinfos Hlocal Hnow. cbn [run].
    unfold loop_turn. rewrite Hdeps, Hinfos, Hlocal, Hnow, Hraise. reflexivity.
  - intros stop_name next_info. unfold stop_info.
    destruct (String.eqb_spec next_info "") as [->|Hne].
    + tauto.
    + cbn. split; [discriminate|]. now intros [_ H].
Qed.

Lemma draw_board_raises_witness :
  draw_board reference_runtime default_config [] [VNone] "10:00:00" ten_o_clock
  = None.
Proof.
  apply (draw_board_raises reference_runtime default_config [] [VNone]
           "10:00:00" ten_o_clock).
  left. exists VNone. split; [now left|reflexivity].
Defined.

Lemma draw_rows_raises_at (rt : runtime) (now_utc : Z) (deps : list call) (dep : call) :
  In dep deps -> (forall y, draw_row rt now_utc y dep = None) ->
  forall y, draw_rows rt now_utc y deps = None.
Proof.
  intros Hin Hrow. induction deps as [|d deps IH]; [contradiction|].
  intros y. cbn [draw_rows]. destruct Hin as [->|Hin].
  - now rewrite Hrow.
  - destruct (draw_row rt now_utc y d); [|reflexivity].
    now rewrite (IH Hin).
Qed.

(** X17.  [draw_board] raises, and the loop ends on that turn without
    showing a frame, when a departure among the first [numberOfDepartures]
    has a line code that is not a string: drawing the code raises.  In a
    frame that is shown, every row has a string as line code. *)
Theorem line_code_must_be_text (rt : runtime) (config : Config.t)
    (deps : list call) (stop_infos : list pyval) (now_local : string)
    (now_utc : Z) :
  (forall dep,
      In dep (firstn (Config.numberOfDepartures config) deps) ->
      is_str (publicCode dep) = false ->
      draw_board rt config deps stop_infos now_local now_utc = None /\
      forall tz st tk ticks,
        cached_deps (refresh rt config tz st tk) = deps ->
        cached_stop_infos (refresh rt config tz st tk) = stop_infos ->
        draw_now_local tk = now_local -> draw_now_utc tk = now_utc ->
        run rt config tz st (tk :: ticks) = []) /\
  (forall ops,
      draw_board rt config deps stop_infos now_local now_utc = Some ops ->
      Forall (fun dep => is_str (publicCode dep) = true)
        (firstn (Config.numberOfDepartures config) deps)).
Proof.
  assert (Hraise : forall dep,
             In dep (firstn (Config.numberOfDepartures config) deps) ->
             is_str (publicCode dep) = false ->
             draw_board rt config deps stop_infos now_local now_utc = None).
  { intros dep Hdep Hcode. unfold draw_board.
    destruct (textbbox rt 0 0 now_local) as [[[b0 b1] b2] b3].
    destruct (header_text stop_infos); [|reflexivity].
    destruct (delayed_text (delayed_routes rt deps)); [|reflexivity].
    rewrite (draw_rows_raises_at rt now_utc _ dep Hdep); [reflexivity|].
    intros y. unfold draw_row.
    destruct (symbol_of (transportMode dep)); [|reflexivity].
    destruct (row_minutes rt dep now_utc).
    now destruct (publicCode dep). }
  split.
  - intros dep Hdep Hcode. split; [now apply (Hraise dep)|].
    intros tz st tk ticks Hdeps Hinfos Hlocal Hnow. cbn [run].
    unfold loop_turn. rewrite Hdeps, Hinfos, Hlocal, Hnow.
    now rewrite (Hraise dep Hdep Hcode).
  - intros ops Hops. apply Forall_forall. intros dep Hdep.
    destruct (is_str (publicCode dep)) eqn:Hcode; [reflexivity|].
    rewrite (Hraise dep Hdep Hcode) in Hops. discriminate.
Qed.

(** ** The rows are the earliest departures *)

Lemma strongly_sorted_app {A : Type} (R : A -> A -> Prop) (l1 l2 : list A) :
  StronglySorted R (l1 ++ l2) ->
  forall a b, In a l1 -> In b l2 -> R a b.
Proof.
  induction l1 as [|x l1 IH]; intros Hsorted a b Ha Hb; [contradiction|].
  cbn [app] in Hsorted. inversion Hsorted as [|? ? Hrest Hx]; subst.
  destruct Ha as [<-|Ha].
  - rewrite Forall_forall in Hx. apply Hx, in_or_app. now right.
  - now apply IH.
Qed.

Lemma aggregated_sorted (rt : runtime) (config : Config.t)
    (post : string -> response) (tz : Z -> Z) (now_utc : Z) :
  well_typed post ->
  StronglySorted (key_order sort_key)
    (fst (get_all_departures rt config post tz now_utc)) /\
  Forall (fun d => exists s, expectedArrivalTime d = VStr s /\ sort_key d = VStr s)
    (fst (get_all_departures rt config post tz now_utc)).
Proof.
  intros Htyped. rewrite get_all_departures_unfold. cbn [fst].
  set (concatenated := surviving_calls post (Config.stops config)).
  assert (Hkeys : Forall (fun d => exists s, expectedArrivalTime d = VStr s /\
                                    sort_key d = VStr s) concatenated).
  { pose proof (surviving_calls_truthy post (Config.stops config)) as Ht.
    pose proof (surviving_calls_typed post (Config.stops config) Htyped) as Hs.
    fold concatenated in Ht, Hs. rewrite Forall_forall in *.
    intros d Hd. destruct (sort_key_of_text d (Ht d Hd) (Hs d Hd)) as [s [H1 [_ H2]]].
    now exists s. }
  assert (Hstr : Forall (has_str_key sort_key) concatenated).
  { eapply Forall_impl; [|exact Hkeys]. intros d [s [_ Hs]]. now exists s. }
  destruct (sort_by_stable sort_key concatenated Hstr) as [sorted [Hsort [Hsorted _]]].
  unfold sort_deps. rewrite Hsort. split; [exact Hsorted|].
  eapply Permutation_Forall; [exact (sort_by_perm sort_key _ _ Hsort)|exact Hkeys].
Qed.

(** X13.  When every [expectedArrivalTime] of the responses is a string or
    absent, the departures that get a row are the earliest by the text of
    [expectedArrivalTime]: each of the first [numberOfDepartures] departures
    of the aggregation has a text that is at most the text of every
    departure left without a row. *)
Theorem rows_show_earliest (rt : runtime) (config : Config.t)
    (post : string -> response) (tz : Z -> Z) (now_utc : Z) :
  well_typed post ->
  let deps := fst (get_all_departures rt config post tz now_utc) in
  forall shown hidden,
    In shown (firstn (Config.numberOfDepartures config) deps) ->
    In hidden (skipn (Config.numberOfDepartures config) deps) ->
    exists s t,
      expectedArrivalTime shown = VStr s /\
      expectedArrivalTime hidden = VStr t /\
      String.leb s t = true.
Proof.
  intros Htyped deps shown hidden Hshown Hhidden.
  destruct (aggregated_sorted rt config post tz now_utc Htyped) as [Hsorted Hkeys].
  fold deps in Hsorted, Hkeys.
  rewrite <- (firstn_skipn (Config.numberOfDepartures config) deps) in Hsorted.
  pose proof (strongly_sorted_app _ _ _ Hsorted shown hidden Hshown Hhidden) as Hle.
  rewrite Forall_forall in Hkeys.
  destruct (Hkeys shown) as [s [Hs Hks]].
  { rewrite <- (firstn_skipn (Config.numberOfDepartures config) deps).
    apply in_or_app. now left. }
  destruct (Hkeys hidden) as [t [Ht Hkt]].
  { rewrite <- (firstn_skipn (Config.numberOfDepartures config) deps).
    apply in_or_app. now right. }
  exists s, t. split; [exact Hs|]. split; [exact Ht|].
  unfold key_order, key_le in Hle. now rewrite Hks, Hkt in Hle.
Qed.

Lemma rows_show_earliest_witness :
  let config := {| Config.stops := [tram_stop; bus_stop];
                   Config.numberOfDepartures := 2;
                   Config.refreshInterval := 30000 |} in
  let deps := fst (get_all_departures reference_runtime config both_stops
                     DT.utc ten_o_clock) in
  well_typed both_stops /\
  forall shown hidden,
    In shown (firstn 2 deps) -> In hidden (skipn 2 deps) ->
    exists s t,
      expectedArrivalTime shown = VStr s /\
      expectedArrivalTime hidden = VStr t /\
      String.leb s t = true.
Proof.
  intros config deps.
  assert (Htyped : well_typed both_stops).
  { intros stop_id name calls. unfold both_stops.
    destruct (stop_id =? "NSR:StopPlace:41939")%string;
      [|destruct (stop_id =? "NSR:StopPlace:41936")%string; [|discriminate]];
      intros H; injection H as _ <-; repeat constructor. }
  split; [exact Htyped|].
  exact (rows_show_earliest reference_runtime config both_stops DT.utc
           ten_o_clock Htyped).
Defined.

(** ** The minutes of a row as the clock advances *)

Lemma minutes_until_shape (rt : runtime) (v : pyval) :
  (forall now_utc, minutes_until rt v now_utc = None) \/
  (forall now_utc, minutes_until rt v now_utc = Some None) \/
  (exists w o, forall now_utc,
      minutes_until rt v now_utc
      = Some (Some (Z.max (DT.minutes_of_delta (w - o - now_utc)) 0))).
Proof.
  unfold minutes_until. destruct (truthy v); [|right; left; reflexivity].
  destruct (replace_Z_val v) as [s|]; [|left; reflexivity].
  destruct (fromisoformat rt s) as [[w|w o]|]; try (left; reflexivity).
  right. right. exists w, o. intros now_utc.
  unfold minutes_from. cbn [DT.sub DT.at_utc].
  now replace (w - o - (now_utc - 0)) with (w - o - now_utc) by lia.
Qed.

Lemma minutes_of_delta_antitone (instant now1 now2 : Z) :
  now1 <= now2 ->
  Z.max (DT.minutes_of_delta (instant - now2)) 0
  <= Z.max (DT.minutes_of_delta (instant - now1)) 0.
Proof.
  intros H. apply Z.max_le_compat_r. apply minutes_of_delta_mono. lia.
Qed.

(** X14.  Between two renders of one cached departure the minutes of its
    row only count down: at a later instant of the clock, the scheduled and
    the updated minutes are each at most what they were, and a side that
    was absent stays absent. *)
Theorem minutes_count_down (rt : runtime) (dep : call) (now1 now2 : Z) :
  now1 <= now2 ->
  match row_minutes rt dep now1, row_minutes rt dep now2 with
  | (Some s1, Some u1), (Some s2, Some u2) => s2 <= s1 /\ u2 <= u1
  | (None, None), (None, None) => True
  | _, _ => False
  end.
Proof.
  intros Hnow. unfold row_minutes, computed_minutes, try_except.
  destruct (minutes_until_shape rt (aimedArrivalTime dep))
    as [Ha|[Ha|[wa [oa Ha]]]];
    destruct (minutes_until_shape rt (expectedArrivalTime dep))
      as [He|[He|[we [oe He]]]];
    rewrite ?(Ha now1), ?(Ha now2), ?(He now1), ?(He now2); cbn;
    auto using minutes_of_delta_antitone.
Qed.

Lemma minutes_count_down_witness :
  match row_minutes reference_runtime scenario_A_call ten_o_clock,
        row_minutes reference_runtime scenario_A_call (ten_o_clock + DT.US_PER_SECOND)
  with
  | (Some s1, Some u1), (Some s2, Some u2) => s2 <= s1 /\ u2 <= u1
  | (None, None), (None, None) => True
  | _, _ => False
  end.
Proof.
  apply (minutes_count_down reference_runtime scenario_A_call ten_o_clock
           (ten_o_clock + DT.US_PER_SECOND)).
  vm_compute. discriminate.
Defined.

(** ** The board when no stop answers *)

Lemma surviving_calls_all_skipped (post : string -> response)
    (stops : list Config.stop) :
  (forall stop, In stop stops -> skipped post stop = true) ->
  surviving_calls post stops = [] /\
  filter (fun stop => negb (skipped post stop)) stops = [].
Proof.
  induction stops as [|stop stops IH]; intros Hall; [now split|].
  destruct IH as [Hcalls Hstops]; [intros s Hs; apply Hall; now right|].
  unfold surviving_calls in *. cbn [flat_map filter].
  rewrite (Hall stop (or_introl eq_refl)), Hcalls, Hstops. now split.
Qed.

(** X15.  When the request of every configured stop ends in "not found" or
    "error", and likewise when no stop is configured, the aggregation
    returns no departure and no stop summary, and the frame drawn from
    them is the cleared panel, the clock and the header "Departure Board",
    without a delay row and without a row. *)
Theorem outage_frame (rt : runtime) (config : Config.t)
    (post : string -> response) (tz : Z -> Z) (now_utc : Z)
    (now_local : string) (draw_now : Z) :
  (forall stop, In stop (Config.stops config) ->
                adapter_failed (post (Config.id stop)) = true) ->
  get_all_departures rt config post tz now_utc = ([], []) /\
  exists clock_x,
    draw_board rt config [] [] now_local draw_now
    = Some [Rectangle 0 0 (device_width rt - 1) (device_height rt - 1);
            Text clock_x 5 (VStr now_local) FONT;
            Text 5 5 (VStr "Departure Board") FONT;
            Display].
Proof.
  intros Hall. split.
  - rewrite get_all_departures_unfold.
    destruct (surviving_calls_all_skipped post (Config.stops config))
      as [-> ->]; [|reflexivity].
    intros stop Hstop. now apply adapter_failed_skipped, Hall.
  - unfold draw_board.
    destruct (textbbox rt 0 0 now_local) as [[[b0 b1] b2] b3].
    exists (device_width rt - (b2 - b0) - 5). cbn.
    now destruct (Config.numberOfDepartures config).
Qed.

Lemma outage_frame_witness :
  get_all_departures reference_runtime default_config (fun _ => Failed)
    DT.utc ten_o_clock = ([], []).
Proof.
  apply (outage_frame reference_runtime default_config (fun _ => Failed)
           DT.utc ten_o_clock "10:00:00" ten_o_clock).
  intros stop _. reflexivity.
Defined.

(** ** The width of the minutes *)

(** X16.  Minutes below 100 are shown on exactly three characters, the
    letter m included, and minutes below 10 as a space, the digit and m, so
    that the time field keeps its width as the minutes count down. *)
Theorem minutes_text_width (mins : Z) :
  0 <= mins < 100 ->
  String.length (minutes_text mins) = 3%nat /\
  (mins < 10 ->
   String.length (str_of_int mins) = 1%nat /\
   minutes_text mins = " " ++ str_of_int mins ++ "m").
Proof.
  intros Hm.
  assert (Hall : forallb (fun k =>
                    Nat.eqb (String.length (minutes_text (Z.of_nat k))) 3
                    && (negb (k <? 10)%nat
                        || (Nat.eqb (String.length (str_of_int (Z.of_nat k))) 1
                            && (minutes_text (Z.of_nat k)
                                =? " " ++ str_of_int (Z.of_nat k) ++ "m")%string)))
                   (seq 0 100) = true) by (vm_compute; reflexivity).
  rewrite forallb_forall in Hall.
  specialize (Hall (Z.to_nat mins)). rewrite Z2Nat.id in Hall by lia.
  apply andb_prop in Hall as [Hlen Hpad]; [|apply in_seq; lia].
  split; [now apply Nat.eqb_eq|].
  intros Hsmall.
  destruct (Nat.ltb_spec (Z.to_nat mins) 10) as [_|Hge]; [|lia].
  cbn [negb orb] in Hpad. apply andb_prop in Hpad as [Hone Htext].
  split; [now apply Nat.eqb_eq|now apply String.eqb_eq].
Qed.

Lemma minutes_text_width_witness : String.length (minutes_text 5) = 3%nat.
Proof.
  apply (minutes_text_width 5). lia.
Defined.
